(** * Solar tracking system: the motor-control core

    A shallow embedding of the Linux side of the solar tracker:

    - [Servo-Stepper.c], the platform driver that owns the servo line and
      the four stepper phase lines and exposes them as the five character
      devices [/dev/plat_drv0] .. [/dev/plat_drv4];
    - [main.c], the user-space controller that reads [SUN_DIR:<word>] lines
      from the serial port and turns them into writes to those devices;
    - the part of [Lys.h] (ESP32 firmware) that chooses the word.

    Kernel and libc services the sources call (kstrtoint, snprintf, sscanf,
    fgets, strcspn, the gpio and chrdev API) are modelled next to the code
    that uses them. *)

From Stdlib Require Import ZArith Ascii String List Lia.
From Stdlib Require Import DecimalString DecimalFacts DecimalPos DecimalN DecimalZ.
From stdpp Require Import base gmap strings list.
From Equations Require Import Equations.

Local Open Scope Z_scope.

(** ** C integers *)

Definition INT_MIN : Z := - 2 ^ 31.
Definition INT_MAX : Z := 2 ^ 31 - 1.
Definition ULLONG_MAX : Z := 2 ^ 64 - 1.

(** Two's complement wrap-around of a 32-bit [int]. *)
Definition wrap32 (z : Z) : Z := (z + 2 ^ 31) mod 2 ^ 32 - 2 ^ 31.

Definition int_add (a b : Z) : Z := wrap32 (a + b).
Definition int_sub (a b : Z) : Z := wrap32 (a - b).
Definition int_mul (a b : Z) : Z := wrap32 (a * b).
(** C division truncates towards zero; [%] takes the sign of the dividend. *)
Definition int_div (a b : Z) : Z := wrap32 (Z.quot a b).
Definition int_rem (a b : Z) : Z := Z.rem a b.

(** errno values *)
Definition EFAULT : Z := 14.
Definition EBUSY : Z := 16.
Definition EINVAL : Z := 22.
Definition ERANGE : Z := 34.

(** ** C strings and the libc / kernel string routines the sources call *)

Module CStr.

Definition NUL : ascii := ascii_of_nat 0.
Definition LF : ascii := ascii_of_nat 10.
Definition CR : ascii := ascii_of_nat 13.

(** The newline escape of the C literals. *)
Definition nl : string := String LF EmptyString.

(** A byte buffer seen as a C string: everything before the first NUL. *)
Fixpoint c_str (s : string) : string :=
  match s with
  | EmptyString => EmptyString
  | String c r => if Ascii.eqb c NUL then EmptyString else String c (c_str r)
  end.

Definition strlen (s : string) : Z := Z.of_nat (String.length (c_str s)).

Definition isdigit (c : ascii) : bool :=
  let n := nat_of_ascii c in (48 <=? n)%nat && (n <=? 57)%nat.

(** [isspace] in the C locale: space, and the controls 9 .. 13. *)
Definition isspace (c : ascii) : bool :=
  let n := nat_of_ascii c in (n =? 32)%nat || ((9 <=? n)%nat && (n <=? 13)%nat).

Definition digit_val (c : ascii) : Z := Z.of_nat (nat_of_ascii c) - 48.

(** printf's [%d]. *)
Definition fmt_d (z : Z) : string := NilZero.string_of_int (Z.to_int z).

Fixpoint take (n : nat) (s : string) : string :=
  match n, s with
  | S n', String c r => String c (take n' r)
  | _, _ => EmptyString
  end.

(** [snprintf(buf, size, ...)]: the buffer receives at most [size - 1]
    characters of the formatted text; the call returns the full length. *)
Definition snprintf (size : nat) (text : string) : string * Z :=
  (take (size - 1)%nat text, Z.of_nat (String.length text)).

Fixpoint mem (c : ascii) (set : string) : bool :=
  match set with
  | EmptyString => false
  | String d r => Ascii.eqb c d || mem c r
  end.

(** [strcspn(s, reject)]: length of the initial segment without any
    character of [reject]. *)
Fixpoint strcspn (s reject : string) : nat :=
  match s with
  | EmptyString => O
  | String c r => if mem c reject then O else S (strcspn r reject)
  end.

(** [strcmp(a, b) == 0] *)
Definition streq (a b : string) : bool := String.eqb a b.

(** Matching of the literal part of a scanf format: ordinary characters
    must match the input exactly. *)
Fixpoint match_literal (lit input : string) : option string :=
  match lit, input with
  | EmptyString, _ => Some input
  | String a l', String b i' => if Ascii.eqb a b then match_literal l' i' else None
  | String _ _, EmptyString => None
  end.

Fixpoint skip_space (s : string) : string :=
  match s with
  | String c r => if isspace c then skip_space r else s
  | EmptyString => EmptyString
  end.

Fixpoint take_nonspace (width : nat) (s : string) : string :=
  match width, s with
  | S w, String c r => if isspace c then EmptyString else String c (take_nonspace w r)
  | _, _ => EmptyString
  end.

(** scanf's [%<width>s]: skip white space, then store the following
    non-white characters, at most [width] of them.  The conversion fails
    when the input ends before any character is stored. *)
Definition scan_s (width : nat) (input : string) : option string :=
  match skip_space input with
  | EmptyString => None
  | String c r => Some (take_nonspace width (String c r))
  end.

(** [fgets(buf, size, stream)]: read up to [size - 1] characters, stopping
    after a newline; [None] at end of input.  Returns the line and the
    rest of the stream. *)
Fixpoint fgets_aux (room : nat) (input : string) : string * string :=
  match room, input with
  | S n, String c r =>
      if Ascii.eqb c LF then (String c EmptyString, r)
      else let '(l, rest) := fgets_aux n r in (String c l, rest)
  | _, _ => (EmptyString, input)
  end.

Definition fgets (size : nat) (input : string) : option (string * string) :=
  match input with
  | EmptyString => None
  | _ => Some (fgets_aux (size - 1)%nat input)
  end.

End CStr.

(** ** [kstrtoint] (lib/kstrtox.c), base 10 *)

Module Kstrtox.
Import CStr.

Inductive kres : Type :=
| KOk (value : Z)
| KErr (err : Z).

(** [_parse_integer]: accumulate the leading digits.  Returns the value,
    the number of characters consumed and the rest of the string.  The
    kernel flags an overflow when the value leaves [unsigned long long];
    the accumulator only grows, so this is a test on the final value. *)
Fixpoint _parse_integer (s : string) (res : Z) (rv : nat) : Z * nat * string :=
  match s with
  | String c r =>
      if isdigit c then _parse_integer r (res * 10 + digit_val c) (S rv)
      else (res, rv, s)
  | EmptyString => (res, rv, s)
  end.

Definition _kstrtoull (s : string) : kres :=
  let '(res, rv, rest) := _parse_integer s 0 O in
  if res >? ULLONG_MAX then KErr (- ERANGE)
  else if (rv =? 0)%nat then KErr (- EINVAL)
  else
    let rest := match rest with
                | String c r => if Ascii.eqb c LF then r else rest
                | EmptyString => rest
                end in
    match rest with
    | EmptyString => KOk res
    | String _ _ => KErr (- EINVAL)
    end.

Definition kstrtoull (s : string) : kres :=
  match s with
  | String "+" r => _kstrtoull r
  | _ => _kstrtoull s
  end.

Definition kstrtoll (s : string) : kres :=
  match s with
  | String "-" r =>
      match _kstrtoull r with
      | KErr e => KErr e
      | KOk tmp => if tmp >? 2 ^ 63 then KErr (- ERANGE) else KOk (- tmp)
      end
  | _ =>
      match kstrtoull s with
      | KErr e => KErr e
      | KOk tmp => if tmp >=? 2 ^ 63 then KErr (- ERANGE) else KOk tmp
      end
  end.

Definition kstrtoint (s : string) : kres :=
  match kstrtoll s with
  | KErr e => KErr e
  | KOk tmp => if (tmp <? INT_MIN) || (tmp >? INT_MAX) then KErr (- ERANGE) else KOk tmp
  end.

End Kstrtox.

(** Remember the equation when matching on a computed value. *)
Definition inspect {A : Type} (a : A) : {b : A | a = b} := exist _ a eq_refl.

(** ** The two shapes of [for] loop the sources use *)

(** [for (; i < bound; i++) body], where the body may leave the loop early
    with a non-zero error.  Returns the final [i], the error (0 when the
    loop ran to its end) and the state. *)
Equations? for_up {S : Type} (bound : Z) (body : Z -> S -> Z * S) (i : Z) (s : S)
  : Z * Z * S by wf (Z.to_nat (bound - i)) lt :=
for_up bound body i s with decide (i < bound) := {
  | left _ with body i s := {
      | (err, s') with decide (err = 0) := {
          | left _ => for_up bound body (i + 1) s'
          | right _ => (i, err, s') } }
  | right _ => (i, 0, s) }.
Proof. lia. Qed.

(** [for (; i >= 0; i--) body].  Returns the final [i] and the state. *)
Equations? for_down {S : Type} (body : Z -> S -> S) (i : Z) (s : S)
  : Z * S by wf (Z.to_nat (i + 1)) lt :=
for_down body i s with decide (0 <= i) := {
  | left _ => for_down body (i - 1) (body i s)
  | right _ => (i, s) }.
Proof. lia. Qed.

(** ** The kernel as the driver sees it *)

Module Kernel.

(** Who holds a requested GPIO line. *)
Inductive owner : Type :=
| ThisDriver
| OtherConsumer.

#[global] Instance owner_eq_dec : EqDecision owner.
Proof. solve_decision. Defined.

(** Effects on the outside world in the order they happen: what the kernel
    does to lines and devices, and the delays in between (the driver's
    [udelay] and the [usleep] of the user process). *)
Inductive kevent : Type :=
| GpioSetValue (gpio value : Z)
| Udelay (usecs : Z)
| Usleep (usecs : Z)
| GpioFree (gpio : Z)
| DeviceDestroy (minor : Z)
| CdevDel (minor : Z)
| ClassDestroy
| UnregisterChrdevRegion.

#[global] Instance kevent_eq_dec : EqDecision kevent.
Proof. solve_decision. Defined.

Record kstate : Type := mkKstate {
  chrdev_region : bool;        (* [devno] region allocated *)
  gpio_class : bool;           (* [gpio_class] exists *)
  cdevs : gset Z;              (* minors whose [gpio_cdev[i]] is added *)
  devices : gset Z;            (* minors whose device node exists *)
  gpio_owner : gmap Z owner;   (* requested lines and their holder *)
  gpio_level : gmap Z bool;    (* output level of each line: high or low *)
  servo_angle : Z;             (* [static int servo_angle] *)
  klog : list string;          (* printk output *)
  trace : list kevent          (* effects so far, oldest first *)
}.

(** What can go wrong outside the driver's control during probe. *)
Record kenv : Type := mkKenv {
  alloc_chrdev_region_err : Z;     (* 0, or the error of alloc_chrdev_region *)
  class_create_err : Z;            (* 0, or the PTR_ERR of class_create *)
  cdev_add_err : Z -> Z;           (* per minor: 0, or the error of cdev_add *)
  gpio_is_valid : Z -> bool        (* lines backed by a gpio chip *)
}.

Definition printk (msg : string) (k : kstate) : kstate :=
  mkKstate (chrdev_region k) (gpio_class k) (cdevs k) (devices k)
           (gpio_owner k) (gpio_level k) (servo_angle k)
           (klog k ++ [msg]) (trace k).

Definition emit (e : kevent) (k : kstate) : kstate :=
  mkKstate (chrdev_region k) (gpio_class k) (cdevs k) (devices k)
           (gpio_owner k) (gpio_level k) (servo_angle k)
           (klog k) (trace k ++ [e]).

Definition set_servo_angle (v : Z) (k : kstate) : kstate :=
  mkKstate (chrdev_region k) (gpio_class k) (cdevs k) (devices k)
           (gpio_owner k) (gpio_level k) v (klog k) (trace k).

Definition set_gpio_owner (m : gmap Z owner) (k : kstate) : kstate :=
  mkKstate (chrdev_region k) (gpio_class k) (cdevs k) (devices k)
           m (gpio_level k) (servo_angle k) (klog k) (trace k).

Definition set_gpio_level (m : gmap Z bool) (k : kstate) : kstate :=
  mkKstate (chrdev_region k) (gpio_class k) (cdevs k) (devices k)
           (gpio_owner k) m (servo_angle k) (klog k) (trace k).

Definition set_chrdev (region class : bool) (cd dv : gset Z) (k : kstate) : kstate :=
  mkKstate region class cd dv
           (gpio_owner k) (gpio_level k) (servo_angle k) (klog k) (trace k).

(** [gpio_set_value]: any non-zero value drives the line high. *)
Definition gpio_set_value (gpio value : Z) (k : kstate) : kstate :=
  emit (GpioSetValue gpio value)
       (set_gpio_level (<[gpio := negb (value =? 0)]> (gpio_level k)) k).

Definition gpio_get_value (gpio : Z) (k : kstate) : Z :=
  if default false (gpio_level k !! gpio) then 1 else 0.

Definition udelay (usecs : Z) (k : kstate) : kstate := emit (Udelay usecs) k.

(** [gpio_request_one(gpio, GPIOF_OUT_INIT_LOW, label)]: fails on a line
    without chip or on a line somebody holds; otherwise the caller holds
    the line, configured as an output at level 0. *)
Definition gpio_request_one (env : kenv) (gpio : Z) (k : kstate) : Z * kstate :=
  if negb (gpio_is_valid env gpio) then (- EINVAL, k)
  else match gpio_owner k !! gpio with
       | Some _ => (- EBUSY, k)
       | None =>
           (0, set_gpio_level (<[gpio := false]> (gpio_level k))
                 (set_gpio_owner (<[gpio := ThisDriver]> (gpio_owner k)) k))
       end.

Definition gpio_free (gpio : Z) (k : kstate) : kstate :=
  emit (GpioFree gpio) (set_gpio_owner (delete gpio (gpio_owner k)) k).

Definition alloc_chrdev_region (env : kenv) (k : kstate) : Z * kstate :=
  if alloc_chrdev_region_err env =? 0
  then (0, set_chrdev true (gpio_class k) (cdevs k) (devices k) k)
  else (alloc_chrdev_region_err env, k).

Definition unregister_chrdev_region (k : kstate) : kstate :=
  emit UnregisterChrdevRegion (set_chrdev false (gpio_class k) (cdevs k) (devices k) k).

Definition class_create (env : kenv) (k : kstate) : Z * kstate :=
  if class_create_err env =? 0
  then (0, set_chrdev (chrdev_region k) true (cdevs k) (devices k) k)
  else (class_create_err env, k).

Definition class_destroy (k : kstate) : kstate :=
  emit ClassDestroy (set_chrdev (chrdev_region k) false (cdevs k) (devices k) k).

Definition cdev_add (env : kenv) (minor : Z) (k : kstate) : Z * kstate :=
  if cdev_add_err env minor =? 0
  then (0, set_chrdev (chrdev_region k) (gpio_class k) ({[minor]} ∪ cdevs k) (devices k) k)
  else (cdev_add_err env minor, k).

Definition cdev_del (minor : Z) (k : kstate) : kstate :=
  emit (CdevDel minor)
       (set_chrdev (chrdev_region k) (gpio_class k) (cdevs k ∖ {[minor]}) (devices k) k).

Definition device_create (minor : Z) (k : kstate) : kstate :=
  set_chrdev (chrdev_region k) (gpio_class k) (cdevs k) ({[minor]} ∪ devices k) k.

Definition device_destroy (minor : Z) (k : kstate) : kstate :=
  emit (DeviceDestroy minor)
       (set_chrdev (chrdev_region k) (gpio_class k) (cdevs k) (devices k ∖ {[minor]}) k).

(** The machine before the module is loaded. *)
Definition boot : kstate :=
  mkKstate false false ∅ ∅ ∅ ∅ 0 [] [].

End Kernel.

(** ** Servo-Stepper.c: the platform driver *)

Module Driver.
Import CStr Kstrtox Kernel.

Definition MAX_DEVICES : Z := 5.

Definition SERVO_GPIO : Z := 18.
Definition STEPPER_GPIO_BASE : Z := 22.

Definition SERVO_MIN_ANGLE : Z := 0.
Definition SERVO_MAX_ANGLE : Z := 180.
Definition SERVO_MIN_DUTY : Z := 500.
Definition SERVO_MAX_DUTY : Z := 2500.
Definition SERVO_PERIOD : Z := 20000.

Definition servo_gpio : Z := SERVO_GPIO.
Definition stepper_gpio_base : Z := STEPPER_GPIO_BASE.

(** [sizeof(kbuf)] in [gpio_write] and in [gpio_read]. *)
Definition write_kbuf_size : Z := 32.
Definition read_kbuf_size : nat := 64%nat.

(** The duty cycle expression of [gpio_write], in [int] arithmetic. *)
Definition duty_cycle_of (value : Z) : Z :=
  int_add SERVO_MIN_DUTY
          (int_div (int_mul value (int_sub SERVO_MAX_DUTY SERVO_MIN_DUTY)) SERVO_MAX_ANGLE).

(** [gpio_write(filep, ubuf, count, f_pos)].  [minor] is
    [MINOR(filep->f_inode->i_rdev)], [ubuf] holds the [count] bytes the
    caller passes (a readable user buffer, so copy_from_user succeeds).
    Returns the [ssize_t] result and the new kernel state. *)
Definition gpio_write (minor : Z) (ubuf : string) (k : kstate) : Z * kstate :=
  let count := Z.of_nat (String.length ubuf) in
  if count >=? write_kbuf_size then (- EINVAL, k)
  else
    let kbuf := c_str ubuf in
    if minor =? 0 then
      match kstrtoint kbuf with
      | KErr _ => (- EINVAL, printk ("Invalid servo angle format" +:+ nl) k)
      | KOk value =>
          if (value <? SERVO_MIN_ANGLE) || (value >? SERVO_MAX_ANGLE)
          then (- EINVAL,
                printk ("Servo angle out of range (" +:+ fmt_d SERVO_MIN_ANGLE +:+ "-"
                        +:+ fmt_d SERVO_MAX_ANGLE +:+ ")" +:+ nl) k)
          else
            let duty_cycle := duty_cycle_of value in
            let k := gpio_set_value servo_gpio 1 k in
            let k := udelay duty_cycle k in
            let k := gpio_set_value servo_gpio 0 k in
            let k := udelay (int_sub SERVO_PERIOD duty_cycle) k in
            let k := set_servo_angle value k in
            let k := printk ("Servo moved to " +:+ fmt_d value +:+ " degrees" +:+ nl) k in
            (count, k)
      end
    else if (minor >=? 1) && (minor <=? 4) then
      match kstrtoint kbuf with
      | KErr _ => (- EINVAL, printk ("Invalid stepper value format" +:+ nl) k)
      | KOk value =>
          if negb (value =? 0) && negb (value =? 1)
          then (- EINVAL, printk ("Stepper value must be 0 or 1" +:+ nl) k)
          else (count, gpio_set_value (stepper_gpio_base + (minor - 1)) value k)
      end
    else (- EINVAL, k).

(** [gpio_read(filep, buf, count, f_pos)].  Returns the [ssize_t] result,
    the bytes copied to the user buffer, the new file position and the
    kernel state. *)
Definition gpio_read (minor : Z) (count : Z) (f_pos : Z) (k : kstate)
  : Z * string * Z * kstate :=
  if f_pos >? 0 then (0, EmptyString, f_pos, k)
  else
    let finish (r : string * Z) :=
      let '(kbuf, len) := r in
      let len := if len >? count then count else len in
      (len, take (Z.to_nat len) kbuf, f_pos + len, k) in
    if minor =? 0 then
      finish (snprintf read_kbuf_size
                ("Servo angle: " +:+ fmt_d (servo_angle k) +:+ " degrees" +:+ nl))
    else if (minor >=? 1) && (minor <=? 4) then
      let value := gpio_get_value (stepper_gpio_base + (minor - 1)) k in
      finish (snprintf read_kbuf_size
                ("Stepper pin " +:+ fmt_d minor +:+ ": " +:+ fmt_d value +:+ nl))
    else (- EINVAL, EmptyString, f_pos, k).

(** [cleanup_cdev:] and what follows it. *)
Definition cleanup_cdev (i err : Z) (k : kstate) : Z * kstate :=
  let '(i, k) := for_down (fun i k => cdev_del i (device_destroy i k)) (i - 1) k in
  let k := class_destroy k in
  let k := unregister_chrdev_region k in
  (err, k).

(** [cleanup_gpio:], falling through into [cleanup_cdev:] with the [i] its
    own loop leaves behind. *)
Definition cleanup_gpio (i err : Z) (k : kstate) : Z * kstate :=
  let '(i, k) := for_down (fun i k => gpio_free (stepper_gpio_base + i) k) (i - 1) k in
  let k := gpio_free servo_gpio k in
  cleanup_cdev i err k.

(** [plat_drv_probe]: returns 0 or the error, and the new kernel state. *)
Definition plat_drv_probe (env : kenv) (k : kstate) : Z * kstate :=
  let k := printk ("Probing GPIO Driver for Solar Tracking System" +:+ nl) k in
  let '(err, k) := alloc_chrdev_region env k in
  if negb (err =? 0) then (err, printk ("Failed to allocate chrdev region" +:+ nl) k)
  else
    let '(cerr, k) := class_create env k in
    if negb (cerr =? 0) then (cerr, unregister_chrdev_region k)
    else
      let '(i, err, k) :=
        for_up MAX_DEVICES
          (fun i k =>
             let '(err, k) := cdev_add env i k in
             if negb (err =? 0)
             then (err, printk ("Failed to add cdev " +:+ fmt_d i +:+ nl) k)
             else
               let k := device_create i k in
               (0, printk ("Created /dev/plat_drv" +:+ fmt_d i +:+ nl) k))
          0 k in
      if negb (err =? 0) then cleanup_cdev i err k
      else
        let '(err, k) := gpio_request_one env servo_gpio k in
        if negb (err =? 0)
        then cleanup_cdev i err
               (printk ("Failed to request Servo GPIO " +:+ fmt_d servo_gpio +:+ nl) k)
        else
          let '(i, err, k) :=
            for_up 4
              (fun i k =>
                 let '(err, k) := gpio_request_one env (stepper_gpio_base + i) k in
                 if negb (err =? 0)
                 then (err, printk ("Failed to request Stepper GPIO "
                                    +:+ fmt_d (stepper_gpio_base + i) +:+ nl) k)
                 else (0, k))
              0 k in
          if negb (err =? 0) then cleanup_gpio i err k
          else (0, printk ("GPIO Driver successfully probed" +:+ nl) k).

(** [plat_drv_remove] *)
Definition plat_drv_remove (k : kstate) : Z * kstate :=
  let k := printk ("Removing GPIO Driver" +:+ nl) k in
  let k := gpio_free servo_gpio k in
  let '(_, _, k) := for_up 4 (fun i k => (0, gpio_free (stepper_gpio_base + i) k)) 0 k in
  let '(_, _, k) :=
    for_up MAX_DEVICES (fun i k => (0, cdev_del i (device_destroy i k))) 0 k in
  let k := class_destroy k in
  let k := unregister_chrdev_region k in
  (0, printk ("GPIO Driver removed successfully" +:+ nl) k).

End Driver.


(** ** Lys.h (ESP32): the word sent for the brightest sensor *)

Module Esp32.
Import CStr.

Definition bytes (l : list nat) : string :=
  fold_right (fun n s => String (ascii_of_nat n) s) EmptyString l.

(** The literal of Lys.h line 90: H, the two bytes C3 B8 (UTF-8 for the
    letter o with stroke), j, r, e. *)
Definition Hoejre : string := bytes [72; 195; 184; 106; 114; 101]%nat.

(** [getSunDirection(left, right, up, down)] *)
Definition getSunDirection (left right up down : Z) : string :=
  let maxIntensity := left in
  let direction := "Venstre" in
  let '(maxIntensity, direction) :=
    if right >? maxIntensity then (right, Hoejre) else (maxIntensity, direction) in
  let '(maxIntensity, direction) :=
    if up >? maxIntensity then (up, "Op") else (maxIntensity, direction) in
  let '(maxIntensity, direction) :=
    if down >? maxIntensity then (down, "Ned") else (maxIntensity, direction) in
  direction.

(** What [loop()] prints to the UART: [RP.printf("SUN_DIR:%s\n", direction)]. *)
Definition uart_line (direction : string) : string :=
  "SUN_DIR:" +:+ direction +:+ nl.

End Esp32.

(** ** main.c: the user-space controller

    The process state is the kernel it talks to; console output (printf,
    perror) is not part of the model. *)

Module App.
Import CStr Kernel Driver.

Definition SERVO_DEV : string := "/dev/plat_drv0".
Definition STEPPER_DEV1 : string := "/dev/plat_drv1".
Definition STEPPER_DEV2 : string := "/dev/plat_drv2".
Definition STEPPER_DEV3 : string := "/dev/plat_drv3".
Definition STEPPER_DEV4 : string := "/dev/plat_drv4".

Definition SERVO_UP_ANGLE : Z := 90.
Definition SERVO_DOWN_ANGLE : Z := 45.
Definition STEPPER_STEPS : Z := 50.
Definition STEP_DELAY_US : Z := 2000.

Definition stepSequence : list (list Z) :=
  [ [1; 0; 0; 1];
    [1; 1; 0; 0];
    [0; 1; 1; 0];
    [0; 0; 1; 1] ].

(** [stepSequence[row][col]] *)
Definition stepSequence_at (row col : Z) : Z :=
  default 0 (stepSequence !! Z.to_nat row ≫= fun r => r !! Z.to_nat col).

(** The character device a path names: [/dev/plat_drv<i>] is created by the
    probe for minor [i]. *)
Definition dev_minor (path : string) : option Z :=
  if String.eqb path SERVO_DEV then Some 0
  else if String.eqb path STEPPER_DEV1 then Some 1
  else if String.eqb path STEPPER_DEV2 then Some 2
  else if String.eqb path STEPPER_DEV3 then Some 3
  else if String.eqb path STEPPER_DEV4 then Some 4
  else None.

(** [open(path, O_WRONLY)]: succeeds when the node exists and its cdev is
    registered; the descriptor stands for the minor. *)
Definition open_wronly (path : string) (k : kstate) : option Z :=
  match dev_minor path with
  | Some m => if decide (m ∈ devices k ∧ m ∈ cdevs k) then Some m else None
  | None => None
  end.

(** [write(fd, buffer, strlen(buffer))] on such a descriptor enters the
    driver's write handler. *)
Definition write_fd (fd : Z) (buffer : string) (k : kstate) : Z * kstate :=
  gpio_write fd (c_str buffer) k.

(** [moveServo(angle)] *)
Definition moveServo (angle : Z) (k : kstate) : Z * kstate :=
  if (angle <? 0) || (angle >? 180) then (-1, k)
  else
    match open_wronly SERVO_DEV k with
    | None => (-1, k)
    | Some fd =>
        let buffer := fst (snprintf 16 (fmt_d angle)) in
        let '(r, k) := write_fd fd buffer k in
        if r <? 0 then (-1, k) else (0, k)
    end.

(** [writeStepperPin(device, value)] *)
Definition writeStepperPin (device : string) (value : Z) (k : kstate) : Z * kstate :=
  match open_wronly device k with
  | None => (-1, k)
  | Some fd =>
      let buffer := fst (snprintf 2 (fmt_d value)) in
      let '(r, k) := write_fd fd buffer k in
      if r <? 0 then (-1, k) else (0, k)
  end.

(** [resetStepper()] *)
Definition resetStepper (k : kstate) : kstate :=
  let k := snd (writeStepperPin STEPPER_DEV1 0 k) in
  let k := snd (writeStepperPin STEPPER_DEV2 0 k) in
  let k := snd (writeStepperPin STEPPER_DEV3 0 k) in
  let k := snd (writeStepperPin STEPPER_DEV4 0 k) in
  k.

(** [int stepIndex = clockwise ? (i % 4) : (3 - (i % 4));] *)
Definition stepIndex (clockwise i : Z) : Z :=
  if negb (clockwise =? 0) then int_rem i 4 else int_sub 3 (int_rem i 4).

(** One turn of the loop of [rotateStepper]. *)
Definition rotate_step (clockwise i : Z) (k : kstate) : kstate :=
  let stepIndex := stepIndex clockwise i in
  let k := snd (writeStepperPin STEPPER_DEV1 (stepSequence_at stepIndex 0) k) in
  let k := snd (writeStepperPin STEPPER_DEV2 (stepSequence_at stepIndex 1) k) in
  let k := snd (writeStepperPin STEPPER_DEV3 (stepSequence_at stepIndex 2) k) in
  let k := snd (writeStepperPin STEPPER_DEV4 (stepSequence_at stepIndex 3) k) in
  emit (Usleep STEP_DELAY_US) k.

(** [rotateStepper(steps, clockwise)] *)
Definition rotateStepper (steps clockwise : Z) (k : kstate) : Z * kstate :=
  let '(_, _, k) := for_up steps (fun i k => (0, rotate_step clockwise i k)) 0 k in
  let k := resetStepper k in
  (0, k).

(** The size of [static char direction[32]]. *)
Definition direction_size : nat := 32%nat.

(** [parseSunDirection(line)]: [sscanf(line, "SUN_DIR:%31s", direction) == 1]
    yields the buffer, anything else NULL. *)
Definition parseSunDirection (line : string) : option string :=
  match match_literal "SUN_DIR:" line with
  | None => None
  | Some rest => scan_s 31 rest
  end.

(** The literal of main.c line 189: H, the four bytes C3 83 C2 B8, j, r, e. *)
Definition accented_Hojre : string :=
  Esp32.bytes [72; 195; 131; 194; 184; 106; 114; 101]%nat.

(** What one received direction makes the controller do. *)
Inductive action : Type :=
| Rotate (steps clockwise : Z)     (* rotateStepper(steps, clockwise) *)
| MoveServo (angle : Z)            (* moveServo(angle) *)
| NoMovement.                      (* "Unknown direction, no movement" *)

#[global] Instance action_eq_dec : EqDecision action.
Proof. solve_decision. Defined.

(** The [strcmp] chain of [main]. *)
Definition dispatch (direction : string) : action :=
  if streq direction "Venstre" then Rotate STEPPER_STEPS 0
  else if streq direction accented_Hojre || streq direction "Hojre"
  then Rotate STEPPER_STEPS 1
  else if streq direction "Op" then MoveServo SERVO_UP_ANGLE
  else if streq direction "Ned" then MoveServo SERVO_DOWN_ANGLE
  else NoMovement.

Definition perform (a : action) (k : kstate) : kstate :=
  match a with
  | Rotate steps clockwise => snd (rotateStepper steps clockwise k)
  | MoveServo angle => snd (moveServo angle k)
  | NoMovement => k
  end.

(** The body of the [while (1)] loop for one line that [fgets] returned:
    cut the line at the first CR or LF, parse, act.  [None] is the
    [continue] of an invalid command. *)
Definition handle_line (line : string) (k : kstate) : option action * kstate :=
  let line := take (strcspn line (String CR (String LF EmptyString))) (c_str line) in
  match parseSunDirection line with
  | None => (None, k)
  | Some direction =>
      let a := dispatch direction in
      (Some a, emit (Usleep 100000) (perform a k))
  end.

(** The control loop on a finite serial input: one [fgets] per turn until
    the input is used up (after that [fgets] keeps returning NULL and the
    loop only sleeps).  Returns what was done for each line read. *)
Equations? main_loop (input : string) (k : kstate)
  : list (option action) * kstate by wf (String.length input) lt :=
main_loop input k with inspect (fgets 256 input) := {
  | exist _ None _ => ([], k)
  | exist _ (Some (line, rest)) Heq =>
      let '(a, k) := handle_line line k in
      let '(acts, k) := main_loop rest k in
      (a :: acts, k) }.
Proof.
  assert (Haux : forall n s l r, fgets_aux n s = (l, r) ->
                 (String.length r <= String.length s)%nat).
  { clear. induction n as [|n IH]; intros s l r; destruct s as [|c s]; simpl;
      try (intros E; injection E as <- <-; simpl; lia).
    destruct (Ascii.eqb c LF); [intros E; injection E as <- <-; simpl; lia|].
    destruct (fgets_aux n s) as [l' r'] eqn:E. intros E'. injection E' as <- <-.
    specialize (IH _ _ _ E). lia. }
  destruct input as [|c s]; [discriminate|].
  unfold fgets in Heq. change (256 - 1)%nat with (S 254) in Heq.
  generalize dependent 254%nat. intros n Heq. cbn [fgets_aux] in Heq.
  destruct (Ascii.eqb c LF).
  - inversion Heq; subst. simpl. lia.
  - destruct (fgets_aux n s) as [l' r'] eqn:E. inversion Heq; subst.
    specialize (Haux _ _ _ _ E). simpl. lia.
Qed.

End App.


(** * Vocabulary of the statements *)

Import CStr Kstrtox Kernel Driver App.

(** A machine on which the probe meets no obstacle, and the state it
    leaves behind. *)
Definition env_ok : kenv := mkKenv 0 0 (fun _ => 0) (fun _ => true).
Definition attached : kstate := snd (plat_drv_probe env_ok boot).

(** The value of a digit sequence read from the left, as [_parse_integer]
    accumulates it. *)
Fixpoint uint_acc (d : Decimal.uint) (acc : Z) : Z :=
  match d with
  | Decimal.Nil => acc
  | Decimal.D0 l => uint_acc l (acc * 10 + 0)
  | Decimal.D1 l => uint_acc l (acc * 10 + 1)
  | Decimal.D2 l => uint_acc l (acc * 10 + 2)
  | Decimal.D3 l => uint_acc l (acc * 10 + 3)
  | Decimal.D4 l => uint_acc l (acc * 10 + 4)
  | Decimal.D5 l => uint_acc l (acc * 10 + 5)
  | Decimal.D6 l => uint_acc l (acc * 10 + 6)
  | Decimal.D7 l => uint_acc l (acc * 10 + 7)
  | Decimal.D8 l => uint_acc l (acc * 10 + 8)
  | Decimal.D9 l => uint_acc l (acc * 10 + 9)
  end.

(** Everything but the kernel log is as before. *)
Definition unchanged_but_log (k k' : kstate) : Prop :=
  chrdev_region k' = chrdev_region k /\ gpio_class k' = gpio_class k /\
  cdevs k' = cdevs k /\ devices k' = devices k /\
  gpio_owner k' = gpio_owner k /\ gpio_level k' = gpio_level k /\
  servo_angle k' = servo_angle k /\ trace k' = trace k.

Definition range_msg : string := "Servo angle out of range (0-180)" +:+ nl.
Definition servo_format_msg : string := "Invalid servo angle format" +:+ nl.
Definition stepper_format_msg : string := "Invalid stepper value format" +:+ nl.
Definition stepper_value_msg : string := "Stepper value must be 0 or 1" +:+ nl.

(** The pulse a successful servo write produces. *)
Definition servo_pulse (duty : Z) : list kevent :=
  [GpioSetValue servo_gpio 1; Udelay duty;
   GpioSetValue servo_gpio 0; Udelay (SERVO_PERIOD - duty)].

(** The writes the driver refuses: an endpoint that does not exist, a
    servo payload that is no integer, a phase payload that is neither the
    integer 0 nor the integer 1. *)
Definition refused_write (minor : Z) (ubuf : string) : Prop :=
  (minor < 0 \/ 4 < minor) \/
  (minor = 0 /\ forall v, kstrtoint (c_str ubuf) <> KOk v) \/
  (1 <= minor <= 4 /\ kstrtoint (c_str ubuf) <> KOk 0 /\ kstrtoint (c_str ubuf) <> KOk 1).

(** What the kernel log gains on each refusal (nothing at all when the
    payload does not even fit the 32-byte buffer). *)
Definition refusal_log (minor : Z) (ubuf : string) : list string :=
  if (32 <=? String.length ubuf)%nat then []
  else if minor =? 0 then [servo_format_msg]
  else if (minor >=? 1) && (minor <=? 4) then
    match kstrtoint (c_str ubuf) with
    | KErr _ => [stepper_format_msg]
    | KOk _ => [stepper_value_msg]
    end
  else [].

(** The text [gpio_read] formats for an endpoint. *)
Definition read_text (minor : Z) (k : kstate) : string :=
  if minor =? 0
  then "Servo angle: " +:+ fmt_d (servo_angle k) +:+ " degrees" +:+ nl
  else "Stepper pin " +:+ fmt_d minor +:+ ": "
       +:+ fmt_d (gpio_get_value (stepper_gpio_base + (minor - 1)) k) +:+ nl.

(** The bytes a read hands to the caller. *)
Definition read_bytes (r : Z * string * Z * kstate) : string := snd (fst (fst r)).
Definition read_ret (r : Z * string * Z * kstate) : Z := fst (fst (fst r)).

(** The state after the driver is attached and the servo was sent to 90. *)
Definition at_ninety : kstate := snd (gpio_write 0 "90" attached).

(** The four phase devices exist and are registered. *)
Definition stepper_ready (k : kstate) : Prop :=
  forall m, 1 <= m <= 4 -> m ∈ devices k /\ m ∈ cdevs k.

(** The four line writes of one table row, and what they do to the lines. *)
Definition row_writes (row : Z) : list kevent :=
  [GpioSetValue 22 (stepSequence_at row 0); GpioSetValue 23 (stepSequence_at row 1);
   GpioSetValue 24 (stepSequence_at row 2); GpioSetValue 25 (stepSequence_at row 3)].

Definition apply_row (v0 v1 v2 v3 : Z) (k : kstate) : kstate :=
  gpio_set_value 25 v3 (gpio_set_value 24 v2 (gpio_set_value 23 v1 (gpio_set_value 22 v0 k))).

(** The events of one step of the rotation. *)
Definition step_events (clockwise i : Z) : list kevent :=
  row_writes (stepIndex clockwise i) ++ [Usleep STEP_DELAY_US].

(** The rows the specification names: [i mod 4] clockwise, [3 - i mod 4]
    counter-clockwise. *)
Definition spec_row (clockwise : bool) (i : Z) : Z :=
  if clockwise then i mod 4 else 3 - i mod 4.

(** The de-energize pass: 0 on each phase line. *)
Definition row_writes_off : list kevent :=
  [GpioSetValue 22 0; GpioSetValue 23 0; GpioSetValue 24 0; GpioSetValue 25 0].

(** The five lines of the pin group. *)
Definition pin_group : list Z := [18; 22; 23; 24; 25].

(** A line the probe can get: it has a chip behind it and nobody holds it. *)
Definition line_available (env : kenv) (k : kstate) (gpio : Z) : Prop :=
  gpio_is_valid env gpio = true /\ gpio_owner k !! gpio = None.

(** The body of the loop that requests the stepper lines. *)
Definition request_body (env : kenv) (i : Z) (k : kstate) : Z * kstate :=
  let '(err, k) := gpio_request_one env (stepper_gpio_base + i) k in
  if negb (err =? 0)
  then (err, printk ("Failed to request Stepper GPIO "
                     +:+ fmt_d (stepper_gpio_base + i) +:+ nl) k)
  else (0, k).

(** The owner map once the stepper lines [22 .. 22 + n - 1] are taken. *)
Definition owners_taken (m0 : gmap Z owner) (n : Z) (m : gmap Z owner) : Prop :=
  forall g, m !! g = if decide (22 <= g < 22 + n) then Some ThisDriver else m0 !! g.

Definition lines_free (m0 : gmap Z owner) (n : Z) : Prop :=
  forall g, 22 <= g < 22 + n -> m0 !! g = None.

(** Fields the line requests leave alone. *)
Definition same_chrdev (k k' : kstate) : Prop :=
  chrdev_region k' = chrdev_region k /\ gpio_class k' = gpio_class k /\
  cdevs k' = cdevs k /\ devices k' = devices k /\
  servo_angle k' = servo_angle k /\ trace k' = trace k.

(** The frees of the stepper lines [22 + n - 1] down to [22]. *)
Definition stepper_frees (n : Z) : list kevent :=
  GpioFree <$> reverse (seqZ 22 n).

Definition free_body (i : Z) (k : kstate) : kstate := gpio_free (stepper_gpio_base + i) k.

(** Fields the frees leave alone. *)
Definition same_but_lines (k k' : kstate) : Prop :=
  chrdev_region k' = chrdev_region k /\ gpio_class k' = gpio_class k /\
  cdevs k' = cdevs k /\ devices k' = devices k /\
  servo_angle k' = servo_angle k /\ klog k' = klog k.

(** The body of the loop that creates the device files. *)
Definition create_body (env : kenv) (i : Z) (k : kstate) : Z * kstate :=
  let '(err, k) := cdev_add env i k in
  if negb (err =? 0)
  then (err, printk ("Failed to add cdev " +:+ fmt_d i +:+ nl) k)
  else
    let k := device_create i k in
    (0, printk ("Created /dev/plat_drv" +:+ fmt_d i +:+ nl) k).

(** Fields the creation of the device files leaves alone. *)
Definition same_but_nodes (k k' : kstate) : Prop :=
  chrdev_region k' = chrdev_region k /\ gpio_class k' = gpio_class k /\
  gpio_owner k' = gpio_owner k /\ gpio_level k' = gpio_level k /\
  servo_angle k' = servo_angle k /\ trace k' = trace k.

(** A machine on which line 24 is held by another consumer. *)
Definition line24_busy : kstate :=
  set_gpio_owner (<[24 := OtherConsumer]> ∅) boot.

Fixpoint all_space (s : string) : bool :=
  match s with
  | EmptyString => true
  | String c r => isspace c && all_space r
  end.

Fixpoint no_space (s : string) : bool :=
  match s with
  | EmptyString => true
  | String c r => negb (isspace c) && no_space r
  end.

(** Nothing follows, or white space does. *)
Definition ends_token (tail : string) : Prop :=
  match tail with
  | EmptyString => True
  | String c _ => isspace c = true
  end.

(** Forty times the letter x. *)
Definition forty_x : string := Esp32.bytes (repeat 120%nat 40).
Definition thirty_one_x : string := Esp32.bytes (repeat 120%nat 31).

(** The shape C7 names: the prefix, then at most 31 characters, none of
    them white space, and nothing else. *)
Definition claimed_shape (line : string) : bool :=
  match match_literal "SUN_DIR:" line with
  | Some token => (String.length token <=? 31)%nat && no_space token
  | None => false
  end.

(** The three lines of the end-to-end scenario. *)
Definition three_lines : string :=
  Esp32.uart_line "Venstre" +:+ Esp32.uart_line "Op" +:+ Esp32.uart_line "Ukendt".

(** * Properties *)

(** The probe succeeds on a machine where nothing is in its way, and then
    holds the five lines. *)
Lemma probe_on_free_machine :
  fst (plat_drv_probe env_ok boot) = 0 /\
  forall g, g ∈ pin_group -> gpio_owner attached !! g = Some ThisDriver.
Proof.
  split; [vm_compute; reflexivity|]. intros g Hg. unfold pin_group in Hg.
  repeat (apply elem_of_cons in Hg as [->|Hg]; [vm_compute; reflexivity|]).
  apply elem_of_nil in Hg. contradiction.
Qed.

(** ** Loops *)

Lemma for_down_step {S : Type} (body : Z -> S -> S) (i : Z) (s : S) :
  for_down body i s =
  if decide (0 <= i) then for_down body (i - 1) (body i s) else (i, s).
Proof.
  rewrite (for_down_equation_1 S body i s).
  destruct (decide (0 <= i)).
  - apply for_down_clause_1_equation_1.
  - apply for_down_clause_1_equation_2.
Qed.

Lemma for_up_step {S : Type} (bound : Z) (body : Z -> S -> Z * S) (i : Z) (s : S) :
  for_up bound body i s =
  if decide (i < bound)
  then if decide (fst (body i s) = 0)
       then for_up bound body (i + 1) (snd (body i s))
       else (i, fst (body i s), snd (body i s))
  else (i, 0, s).
Proof.
  rewrite (for_up_equation_1 S bound body i s).
  destruct (decide (i < bound)); [|apply for_up_clause_1_equation_2].
  rewrite for_up_clause_1_equation_1.
  destruct (body i s) as [err s'].
  rewrite for_up_clause_1_clause_1_equation_1. simpl.
  destruct (decide (err = 0)).
  - apply for_up_clause_1_clause_1_clause_1_equation_1.
  - apply for_up_clause_1_clause_1_clause_1_equation_2.
Qed.

(** The index a descending loop stops at. *)
Lemma for_down_index {S : Type} (body : Z -> S -> S) (i : Z) (s : S) :
  -1 <= i -> fst (for_down body i s) = -1.
Proof.
  intros Hi. remember (Z.to_nat (i + 1)) as n eqn:Hn.
  revert i s Hi Hn. induction n as [|n IH]; intros i s Hi Hn;
    rewrite for_down_step; destruct (decide (0 <= i)); simpl; try lia.
  apply IH; lia.
Qed.

Lemma for_down_none {S : Type} (body : Z -> S -> S) (i : Z) (s : S) :
  i < 0 -> for_down body i s = (i, s).
Proof. intros Hi. rewrite for_down_step. destruct (decide (0 <= i)); [lia|reflexivity]. Qed.

(** ** Arithmetic of [int] *)

Lemma wrap32_small (z : Z) : INT_MIN <= z <= INT_MAX -> wrap32 z = z.
Proof.
  unfold INT_MIN, INT_MAX, wrap32. intros H.
  rewrite Z.mod_small; lia.
Qed.

Lemma duty_cycle_of_exact (a : Z) :
  0 <= a <= 180 -> duty_cycle_of a = 500 + a * (2500 - 500) / 180.
Proof.
  intros Ha. unfold duty_cycle_of, int_add, int_div, int_mul, int_sub,
    SERVO_MIN_DUTY, SERVO_MAX_DUTY, SERVO_MAX_ANGLE.
  assert (Hq : 0 <= a * 2000 / 180 <= 2000).
  { split; [apply Z.div_pos; lia|]. apply Z.div_le_upper_bound; lia. }
  rewrite (wrap32_small (2500 - 500)) by (unfold INT_MIN, INT_MAX; lia).
  change (2500 - 500) with 2000.
  rewrite (wrap32_small (a * 2000)) by (unfold INT_MIN, INT_MAX; lia).
  rewrite Z.quot_div_nonneg by lia.
  rewrite (wrap32_small (a * 2000 / 180)) by (unfold INT_MIN, INT_MAX; lia).
  apply wrap32_small. unfold INT_MIN, INT_MAX; lia.
Qed.

Lemma duty_cycle_bounds (a : Z) :
  0 <= a <= 180 ->
  500 <= 500 + a * (2500 - 500) / 180 <= 2500 /\
  (500 + a * (2500 - 500) / 180 = 2500 <-> a = 180).
Proof.
  intros Ha. change (2500 - 500) with 2000.
  assert (H0 : 0 <= a * 2000 / 180) by (apply Z.div_pos; lia).
  assert (H1 : a * 2000 / 180 <= 2000) by (apply Z.div_le_upper_bound; lia).
  split; [lia|]. split.
  - intros H. assert (Hd : a * 2000 / 180 = 2000) by lia.
    destruct (Z.eq_dec a 180) as [|Hne]; [assumption|exfalso].
    assert (a * 2000 / 180 < 2000); [|lia].
    apply Z.div_lt_upper_bound; lia.
  - intros ->. reflexivity.
Qed.

(** ** Decimal rendering and [kstrtoint] *)

Lemma parse_integer_digits (d : Decimal.uint) (res : Z) (rv : nat) :
  _parse_integer (NilEmpty.string_of_uint d) res rv
  = (uint_acc d res, (rv + Decimal.nb_digits d)%nat, EmptyString).
Proof.
  revert res rv. induction d; intros res rv; simpl;
    try (rewrite IHd; f_equal; f_equal; lia).
  f_equal. f_equal. lia.
Qed.

Lemma uint_acc_pos (d : Decimal.uint) (acc : positive) :
  uint_acc d (Z.pos acc) = Z.pos (Pos.of_uint_acc d acc).
Proof.
  revert acc. induction d; intros acc; simpl; try reflexivity;
    rewrite <- IHd; f_equal; lia.
Qed.

Lemma uint_acc_zero (d : Decimal.uint) :
  uint_acc d 0 = Z.of_N (Pos.of_uint d).
Proof.
  induction d; simpl; try reflexivity; try exact IHd;
    apply (uint_acc_pos d).
Qed.

Lemma uint_acc_lower (d : Decimal.uint) (acc : Z) :
  0 <= acc -> acc * 10 ^ Z.of_nat (Decimal.nb_digits d) <= uint_acc d acc.
Proof.
  revert acc. induction d; intros acc Hacc; simpl Decimal.nb_digits; simpl uint_acc;
    [rewrite Z.pow_0_r; lia| ..];
    rewrite Nat2Z.inj_succ, Z.pow_succ_r by lia;
    (etransitivity; [|apply IHd; lia]);
    apply Z.mul_le_mono_nonneg_r with (p := 10 ^ Z.of_nat (Decimal.nb_digits d)) in Hacc as Hx;
    try (apply Z.pow_nonneg; lia); nia.
Qed.

Lemma to_uint_head (p : positive) :
  Pos.to_uint p <> Decimal.Nil /\ forall l, Pos.to_uint p <> Decimal.D0 l.
Proof.
  split; [apply Unsigned.to_uint_nonnil|]. intros l Hl.
  pose proof (DecimalPos.Unsigned.to_of (Pos.to_uint p)) as Hn.
  rewrite DecimalPos.Unsigned.of_to in Hn. simpl in Hn.
  assert (Hnz : Decimal.nzhead (Pos.to_uint p) <> Decimal.Nil).
  { intros H. apply unorm_0 in H. rewrite <- Hn in H.
    exact (Unsigned.to_uint_nonzero p H). }
  rewrite (unorm_nzhead _ Hnz) in Hn.
  apply (nzhead_nonzero (Pos.to_uint p) l). rewrite <- Hn. exact Hl.
Qed.

Lemma to_uint_value (p : positive) : uint_acc (Pos.to_uint p) 0 = Z.pos p.
Proof. rewrite uint_acc_zero, DecimalPos.Unsigned.of_to. reflexivity. Qed.

Lemma to_uint_digits (p : positive) :
  10 ^ (Z.of_nat (Decimal.nb_digits (Pos.to_uint p)) - 1) <= Z.pos p.
Proof.
  rewrite <- (to_uint_value p).
  destruct (to_uint_head p) as [Hnil Hzero].
  destruct (Pos.to_uint p) as [|l|l|l|l|l|l|l|l|l|l];
    [contradiction|exfalso; exact (Hzero l eq_refl)|..];
    simpl Decimal.nb_digits; simpl uint_acc;
    rewrite Nat2Z.inj_succ;
    replace (Z.succ (Z.of_nat (Decimal.nb_digits l)) - 1)
      with (Z.of_nat (Decimal.nb_digits l)) by lia;
    (etransitivity; [|apply uint_acc_lower; lia]);
    assert (0 <= 10 ^ Z.of_nat (Decimal.nb_digits l)) by (apply Z.pow_nonneg; lia);
    lia.
Qed.

Lemma string_of_uint_length (d : Decimal.uint) :
  String.length (NilEmpty.string_of_uint d) = Decimal.nb_digits d.
Proof. induction d; simpl; congruence. Qed.

Lemma string_of_uint_c_str (d : Decimal.uint) :
  c_str (NilEmpty.string_of_uint d) = NilEmpty.string_of_uint d.
Proof. induction d; simpl; congruence. Qed.

Lemma nilzero_to_uint (p : positive) :
  NilZero.string_of_uint (Pos.to_uint p) = NilEmpty.string_of_uint (Pos.to_uint p).
Proof.
  unfold NilZero.string_of_uint.
  destruct (Pos.to_uint p) eqn:E; try reflexivity.
  exfalso. exact (Unsigned.to_uint_nonnil p E).
Qed.

Lemma to_uint_short (p : positive) :
  Z.pos p <= 2 ^ 31 ->
  (1 <= Decimal.nb_digits (Pos.to_uint p) <= 10)%nat.
Proof.
  intros Hp. pose proof (to_uint_digits p) as Hd.
  destruct (to_uint_head p) as [Hnil _].
  split.
  - destruct (Pos.to_uint p); simpl; try lia. contradiction.
  - destruct (Nat.le_gt_cases (Decimal.nb_digits (Pos.to_uint p)) 10) as [|Hgt]; [assumption|].
    exfalso.
    assert (10 ^ 10 <= 10 ^ (Z.of_nat (Decimal.nb_digits (Pos.to_uint p)) - 1)).
    { apply Z.pow_le_mono_r; lia. }
    assert (2 ^ 31 < 10 ^ 10) by reflexivity. lia.
Qed.

(** [_kstrtoull] on the digits of a positive number. *)
Lemma kstrtoull_digits (p : positive) :
  Z.pos p <= 2 ^ 31 ->
  _kstrtoull (NilEmpty.string_of_uint (Pos.to_uint p)) = KOk (Z.pos p).
Proof.
  intros Hp. unfold _kstrtoull. rewrite parse_integer_digits, to_uint_value.
  destruct (to_uint_short p Hp) as [H1 _].
  destruct (Z.gtb_spec (Z.pos p) ULLONG_MAX) as [Hbig|_].
  { unfold ULLONG_MAX in Hbig. assert (2 ^ 31 < 2 ^ 64 - 1) by reflexivity. lia. }
  destruct (Nat.eqb_spec (0 + Decimal.nb_digits (Pos.to_uint p)) 0); [lia|].
  reflexivity.
Qed.

Lemma digits_first_char (p : positive) :
  exists c r, NilEmpty.string_of_uint (Pos.to_uint p) = String c r /\
              isdigit c = true.
Proof.
  destruct (to_uint_head p) as [Hnil _].
  destruct (Pos.to_uint p); [contradiction|..]; simpl; eauto.
Qed.

Lemma kstrtoull_not_plus (c : ascii) (r : string) :
  c <> "+"%char -> kstrtoull (String c r) = _kstrtoull (String c r).
Proof.
  intros Hc. unfold kstrtoull.
  destruct c as [[] [] [] [] [] [] [] []]; try reflexivity. congruence.
Qed.

Lemma kstrtoll_not_minus (c : ascii) (r : string) :
  c <> "-"%char ->
  kstrtoll (String c r) =
  match kstrtoull (String c r) with
  | KErr e => KErr e
  | KOk tmp => if tmp >=? 2 ^ 63 then KErr (- ERANGE) else KOk tmp
  end.
Proof.
  intros Hc. unfold kstrtoll.
  destruct c as [[] [] [] [] [] [] [] []]; try reflexivity. congruence.
Qed.

(** Every [int] is read back from its decimal rendering, which has no NUL
    and fits the 32-byte buffer of the write handler. *)
Lemma kstrtoint_fmt_d (a : Z) :
  INT_MIN <= a <= INT_MAX ->
  kstrtoint (fmt_d a) = KOk a /\
  c_str (fmt_d a) = fmt_d a /\
  (1 <= String.length (fmt_d a) <= 11)%nat.
Proof.
  unfold INT_MIN, INT_MAX. intros Ha. destruct a as [|p|p].
  - repeat split; simpl; lia.
  - unfold fmt_d. simpl Z.to_int. simpl NilZero.string_of_int.
    rewrite nilzero_to_uint, string_of_uint_c_str, string_of_uint_length.
    assert (Hp : Z.pos p <= 2 ^ 31) by lia.
    destruct (to_uint_short p Hp) as [H1 H2].
    split; [|split; [reflexivity|lia]].
    destruct (digits_first_char p) as (c & r & Hs & Hc).
    pose proof (kstrtoull_digits p Hp) as Hk. rewrite Hs in *.
    assert (Hplus : c <> "+"%char) by (intros ->; discriminate).
    assert (Hminus : c <> "-"%char) by (intros ->; discriminate).
    unfold kstrtoint.
    rewrite (kstrtoll_not_minus c r Hminus), (kstrtoull_not_plus c r Hplus), Hk.
    destruct (Z.geb_spec (Z.pos p) (2 ^ 63)) as [Hbig|_];
      [assert (2 ^ 31 < 2 ^ 63) by reflexivity; lia|].
    unfold INT_MIN, INT_MAX.
    destruct (Z.ltb_spec (Z.pos p) (- 2 ^ 31)) as [|_]; [lia|].
    destruct (Z.gtb_spec (Z.pos p) (2 ^ 31 - 1)) as [|_]; [lia|].
    reflexivity.
  - unfold fmt_d. simpl Z.to_int. simpl NilZero.string_of_int.
    rewrite nilzero_to_uint.
    assert (Hp : Z.pos p <= 2 ^ 31) by lia.
    destruct (to_uint_short p Hp) as [H1 H2].
    split; [|split].
    + unfold kstrtoint, kstrtoll. rewrite (kstrtoull_digits p Hp).
      destruct (Z.gtb_spec (Z.pos p) (2 ^ 63)) as [Hbig|_];
        [assert (2 ^ 31 < 2 ^ 63) by reflexivity; lia|].
      change (- Z.pos p) with (Z.neg p). unfold INT_MIN, INT_MAX.
      destruct (Z.ltb_spec (Z.neg p) (- 2 ^ 31)) as [|_]; [lia|].
      destruct (Z.gtb_spec (Z.neg p) (2 ^ 31 - 1)) as [|_]; [lia|].
      reflexivity.
    + simpl. rewrite string_of_uint_c_str. reflexivity.
    + simpl. rewrite string_of_uint_length. lia.
Qed.

(** ** The write handler *)

Lemma unchanged_but_log_refl (k : kstate) : unchanged_but_log k k.
Proof. repeat split. Qed.

Lemma unchanged_but_log_printk (msg : string) (k : kstate) :
  unchanged_but_log k (printk msg k).
Proof. repeat split. Qed.

Create HintDb drv.
#[local] Hint Resolve unchanged_but_log_refl unchanged_but_log_printk : drv.

Lemma count_fits (ubuf : string) :
  (String.length ubuf < 32)%nat ->
  (Z.of_nat (String.length ubuf) >=? write_kbuf_size) = false.
Proof. intros H. unfold write_kbuf_size. rewrite Z.geb_leb. apply Z.leb_gt. lia. Qed.

Lemma count_too_long (ubuf : string) :
  (32 <= String.length ubuf)%nat ->
  (Z.of_nat (String.length ubuf) >=? write_kbuf_size) = true.
Proof. intros H. unfold write_kbuf_size. apply Z.geb_le. lia. Qed.

Lemma gpio_write_servo_ok (k : kstate) (ubuf : string) (a : Z) :
  (String.length ubuf < 32)%nat ->
  kstrtoint (c_str ubuf) = KOk a ->
  0 <= a <= 180 ->
  let k' := snd (gpio_write 0 ubuf k) in
  fst (gpio_write 0 ubuf k) = Z.of_nat (String.length ubuf) /\
  servo_angle k' = a /\
  trace k' = trace k ++ servo_pulse (500 + a * (2500 - 500) / 180) /\
  gpio_level k' = <[servo_gpio := false]> (<[servo_gpio := true]> (gpio_level k)).
Proof.
  intros Hlen Hparse Ha. unfold gpio_write.
  rewrite (count_fits _ Hlen). simpl. rewrite Hparse.
  unfold SERVO_MIN_ANGLE, SERVO_MAX_ANGLE.
  destruct (Z.ltb_spec a 0); [lia|]. destruct (Z.gtb_spec a 180); [lia|].
  simpl. rewrite duty_cycle_of_exact by lia.
  destruct (duty_cycle_bounds a Ha) as [Hb _].
  unfold int_sub. rewrite wrap32_small
    by (unfold INT_MIN, INT_MAX, SERVO_PERIOD; lia).
  repeat split. rewrite <- !app_assoc. reflexivity.
Qed.

Lemma gpio_write_servo_range (k : kstate) (ubuf : string) (a : Z) :
  (String.length ubuf < 32)%nat ->
  kstrtoint (c_str ubuf) = KOk a ->
  a < 0 \/ 180 < a ->
  gpio_write 0 ubuf k = (- EINVAL, printk range_msg k).
Proof.
  intros Hlen Hparse Ha. unfold gpio_write.
  rewrite (count_fits _ Hlen). simpl. rewrite Hparse.
  unfold SERVO_MIN_ANGLE, SERVO_MAX_ANGLE.
  destruct (Z.ltb_spec a 0); [reflexivity|].
  destruct (Z.gtb_spec a 180); [reflexivity|lia].
Qed.

(** C2.  Every [int] [a] has a payload the kernel reads as [a], its
    decimal rendering.  A write to endpoint 0 with a payload read as [a]
    succeeds for [a] in 0..180 (it returns the byte count) and
    [servo_angle] is [a] afterwards; for [a] outside 0..180 it fails with
    -EINVAL after logging the range error, no pulse is emitted (the trace
    and the line levels are as before) and [servo_angle] keeps its
    value. *)
Theorem servo_write_sets_angle (k : kstate) (a : Z) :
  INT_MIN <= a <= INT_MAX ->
  ((String.length (fmt_d a) < 32)%nat /\ kstrtoint (c_str (fmt_d a)) = KOk a) /\
  (forall ubuf,
     (String.length ubuf < 32)%nat ->
     kstrtoint (c_str ubuf) = KOk a ->
     (0 <= a <= 180 ->
        fst (gpio_write 0 ubuf k) = Z.of_nat (String.length ubuf) /\
        servo_angle (snd (gpio_write 0 ubuf k)) = a) /\
     (a < 0 \/ 180 < a ->
        fst (gpio_write 0 ubuf k) = - EINVAL /\
        klog (snd (gpio_write 0 ubuf k)) = klog k ++ [range_msg] /\
        trace (snd (gpio_write 0 ubuf k)) = trace k /\
        gpio_level (snd (gpio_write 0 ubuf k)) = gpio_level k /\
        servo_angle (snd (gpio_write 0 ubuf k)) = servo_angle k)).
Proof.
  intros Hint. split.
  - destruct (kstrtoint_fmt_d a Hint) as (Hp & Hc & Hl).
    rewrite Hc. split; [lia|exact Hp].
  - intros ubuf Hlen Hparse. split.
    + intros Ha.
      destruct (gpio_write_servo_ok k ubuf a Hlen Hparse Ha) as (H1 & H2 & _).
      split; assumption.
    + intros Ha. rewrite (gpio_write_servo_range k ubuf a Hlen Hparse Ha).
      repeat split.
Qed.

(** C8.  For a valid angle [a] the duty cycle the driver computes in [int]
    arithmetic is exactly 500 + a * (2500 - 500) / 180 (integer division);
    the write drives the servo line high, waits [duty] microseconds, drives
    it low and waits 20000 - [duty]; the duty lies in 500..2500 and is 2500
    exactly when [a] is 180. *)
Theorem servo_pulse_width (k : kstate) (ubuf : string) (a : Z) :
  (String.length ubuf < 32)%nat ->
  kstrtoint (c_str ubuf) = KOk a ->
  0 <= a <= 180 ->
  let duty := 500 + a * (2500 - 500) / 180 in
  duty_cycle_of a = duty /\
  trace (snd (gpio_write 0 ubuf k)) =
    trace k ++ [GpioSetValue 18 1; Udelay duty; GpioSetValue 18 0; Udelay (20000 - duty)] /\
  500 <= duty <= 2500 /\
  (duty = 2500 <-> a = 180).
Proof.
  intros Hlen Hparse Ha duty. split; [apply duty_cycle_of_exact; assumption|].
  split; [apply (gpio_write_servo_ok k ubuf a Hlen Hparse Ha)|].
  apply duty_cycle_bounds; assumption.
Qed.

(** C6.  A write to an endpoint outside 0..4, a write to endpoint 0 whose
    payload is not a decimal integer, and a write to an endpoint 1..4 whose
    payload is not the integer 0 or 1 all fail with -EINVAL; the only thing
    that changes is the kernel log (the invalid-endpoint case logs nothing,
    a malformed payload logs the format or value error): no line is
    toggled, nothing is added to the trace, [servo_angle] keeps its
    value. *)
Theorem write_refusals (minor : Z) (ubuf : string) (k : kstate) :
  refused_write minor ubuf ->
  fst (gpio_write minor ubuf k) = - EINVAL /\
  unchanged_but_log k (snd (gpio_write minor ubuf k)) /\
  klog (snd (gpio_write minor ubuf k)) = klog k ++ refusal_log minor ubuf.
Proof.
  intros Hbad. unfold gpio_write, refusal_log.
  destruct (Nat.leb_spec 32 (String.length ubuf)) as [Hlong|Hshort].
  { rewrite (count_too_long _ Hlong). simpl. rewrite app_nil_r. auto with drv. }
  rewrite (count_fits _ Hshort).
  destruct Hbad as [Hminor | [[-> Hfmt] | (Hminor & H0 & H1)]].
  - destruct (Z.eqb_spec minor 0); [lia|].
    destruct (Z.geb_spec minor 1), (Z.leb_spec minor 4); simpl; try lia;
      rewrite app_nil_r; auto with drv.
  - simpl. destruct (kstrtoint (c_str ubuf)) as [v|e] eqn:E.
    + exfalso. apply (Hfmt v). reflexivity.
    + simpl. auto with drv.
  - destruct (Z.eqb_spec minor 0); [lia|].
    destruct (Z.geb_spec minor 1), (Z.leb_spec minor 4); simpl; try lia.
    destruct (kstrtoint (c_str ubuf)) as [v|e] eqn:E; [|simpl; auto with drv].
    destruct (Z.eqb_spec v 0) as [->|]; [congruence|].
    destruct (Z.eqb_spec v 1) as [->|]; [congruence|].
    simpl. auto with drv.
Qed.

(** ** The read handler *)

Lemma gpio_get_value_bit (gpio : Z) (k : kstate) :
  gpio_get_value gpio k = 0 \/ gpio_get_value gpio k = 1.
Proof. unfold gpio_get_value. destruct (default false _); auto. Qed.

Lemma gpio_read_state (minor count f_pos : Z) (k : kstate) :
  snd (gpio_read minor count f_pos k) = k.
Proof.
  unfold gpio_read. destruct (f_pos >? 0); [reflexivity|].
  destruct (minor =? 0); [reflexivity|].
  destruct ((minor >=? 1) && (minor <=? 4)); reflexivity.
Qed.

Lemma length_append (s t : string) :
  String.length (s +:+ t) = (String.length s + String.length t)%nat.
Proof. induction s as [|c s IH]; simpl; [reflexivity|]. rewrite IH. reflexivity. Qed.

Lemma take_all (n : nat) (s : string) :
  (String.length s <= n)%nat -> CStr.take n s = s.
Proof.
  revert n. induction s as [|c s IH]; intros [|n] H; simpl in *; try reflexivity; try lia.
  rewrite IH by lia. reflexivity.
Qed.

Lemma take_take (n m : nat) (s : string) :
  (n <= m)%nat -> CStr.take n (CStr.take m s) = CStr.take n s.
Proof.
  revert m s. induction n as [|n IH]; intros [|m] [|c s] H; simpl; try reflexivity; try lia.
  rewrite IH by lia. reflexivity.
Qed.

Lemma read_text_length (minor : Z) (k : kstate) :
  0 <= minor <= 4 -> (minor = 0 -> INT_MIN <= servo_angle k <= INT_MAX) ->
  (17 <= String.length (read_text minor k) <= 33)%nat.
Proof.
  intros Hm Ha. unfold read_text.
  destruct (Z.eqb_spec minor 0) as [->|Hne].
  - rewrite !length_append. destruct (kstrtoint_fmt_d _ (Ha eq_refl)) as (_ & _ & Hl).
    simpl. lia.
  - rewrite !length_append.
    destruct (gpio_get_value_bit (stepper_gpio_base + (minor - 1)) k) as [-> | ->];
      assert (Hc : minor = 1 \/ minor = 2 \/ minor = 3 \/ minor = 4) by lia;
      destruct Hc as [-> | [-> | [-> | ->]]]; simpl; lia.
Qed.

Lemma gpio_read_at_start (minor count : Z) (k : kstate) :
  0 <= minor <= 4 -> (minor = 0 -> INT_MIN <= servo_angle k <= INT_MAX) ->
  0 <= count ->
  let text := read_text minor k in
  let len := Z.min (Z.of_nat (String.length text)) count in
  gpio_read minor count 0 k = (len, CStr.take (Z.to_nat len) text, len, k).
Proof.
  intros Hm Ha Hc text len.
  pose proof (read_text_length minor k Hm Ha) as Hlen. fold text in Hlen.
  assert (Hfin : forall t : string, (String.length t <= 63)%nat ->
            (let '(kbuf, l) := snprintf read_kbuf_size t in
             let l := if l >? count then count else l in
             (l, CStr.take (Z.to_nat l) kbuf, 0 + l, k)) =
            (Z.min (Z.of_nat (String.length t)) count,
             CStr.take (Z.to_nat (Z.min (Z.of_nat (String.length t)) count)) t,
             Z.min (Z.of_nat (String.length t)) count, k)).
  { intros t Ht. unfold snprintf, read_kbuf_size.
    rewrite (take_all (64 - 1) t) by (simpl; lia).
    destruct (Z.gtb_spec (Z.of_nat (String.length t)) count).
    - rewrite Z.min_r by lia. reflexivity.
    - rewrite Z.min_l by lia. reflexivity. }
  unfold gpio_read. simpl (0 >? 0). cbv iota.
  subst len text. unfold read_text in *.
  destruct (Z.eqb_spec minor 0).
  - apply Hfin. lia.
  - destruct (Z.geb_spec minor 1), (Z.leb_spec minor 4); simpl andb; cbv iota; try lia.
    apply Hfin. lia.
Qed.

(** C9, as the code has it.  A read of a valid endpoint never changes the
    kernel state.  At file position 0 it hands out the rendered state,
    [Servo angle: <n> degrees] for endpoint 0 with [n] the last commanded
    angle and [Stepper pin <id>: <0|1>] for endpoint [id] in 1..4 with the
    current level of that line, each ended by a newline: the whole text
    when the caller asks for at least its length, else its first [count]
    bytes.  At a position above 0 it hands out nothing and returns 0 (end
    of file).  ([servo_angle] is an [int].) *)
Theorem read_renders_state (minor count : Z) (k : kstate) :
  0 <= minor <= 4 -> INT_MIN <= servo_angle k <= INT_MAX -> 0 <= count ->
  let text := read_text minor k in
  let len := Z.of_nat (String.length text) in
  (forall f_pos, snd (gpio_read minor count f_pos k) = k) /\
  (len <= count -> gpio_read minor count 0 k = (len, text, len, k)) /\
  (count < len ->
     gpio_read minor count 0 k = (count, CStr.take (Z.to_nat count) text, count, k)) /\
  (forall f_pos, 0 < f_pos -> gpio_read minor count f_pos k = (0, EmptyString, f_pos, k)) /\
  (minor = 0 ->
     text = "Servo angle: " +:+ fmt_d (servo_angle k) +:+ " degrees" +:+ nl) /\
  (1 <= minor ->
     exists level, (level = 0 \/ level = 1) /\
       level = gpio_get_value (stepper_gpio_base + (minor - 1)) k /\
       text = "Stepper pin " +:+ fmt_d minor +:+ ": " +:+ fmt_d level +:+ nl).
Proof.
  intros Hm Ha Hc text len.
  pose proof (gpio_read_at_start minor count k Hm (fun _ => Ha) Hc) as Hstart.
  cbv zeta in Hstart. fold text in Hstart. fold len in Hstart.
  split; [intros f_pos; apply gpio_read_state|].
  split; [|split; [|split; [|split]]].
  - intros Hle. rewrite Hstart, Z.min_l by lia.
    unfold len. rewrite Nat2Z.id, take_all by lia. reflexivity.
  - intros Hlt. rewrite Hstart, Z.min_r by lia. reflexivity.
  - intros f_pos Hpos. unfold gpio_read.
    destruct (Z.gtb_spec f_pos 0); [reflexivity|lia].
  - intros ->. reflexivity.
  - intros H1. exists (gpio_get_value (stepper_gpio_base + (minor - 1)) k).
    split; [apply gpio_get_value_bit|]. split; [reflexivity|].
    unfold text, read_text. destruct (Z.eqb_spec minor 0); [lia|reflexivity].
Qed.

Lemma read_renders_state_witness :
  gpio_read 0 64 0 at_ninety
  = (24, "Servo angle: 90 degrees" +:+ nl, 24, at_ninety).
Proof.
  assert (Hm : 0 <= 0 <= 4) by lia.
  assert (Ha : INT_MIN <= servo_angle at_ninety <= INT_MAX)
    by (vm_compute; split; discriminate).
  assert (Hc : 0 <= 64) by lia.
  destruct (read_renders_state 0 64 at_ninety Hm Ha Hc) as (_ & Hfull & _).
  apply Hfull. vm_compute. discriminate.
Defined.

(** C9 as stated fails for the second read on an open file: the position
    is 24 after the first one, and the read returns no text. *)
Lemma read_second_call_is_empty :
  read_text 0 at_ninety = "Servo angle: 90 degrees" +:+ nl /\
  read_ret (gpio_read 0 64 24 at_ninety) = 0 /\
  read_bytes (gpio_read 0 64 24 at_ninety) = EmptyString /\
  read_bytes (gpio_read 0 64 24 at_ninety) <> read_text 0 at_ninety.
Proof. vm_compute. repeat split. discriminate. Qed.

Lemma servo_write_sets_angle_witness :
  fst (gpio_write 0 "90" attached) = 2 /\
  servo_angle (snd (gpio_write 0 "90" attached)) = 90.
Proof.
  assert (Hint : INT_MIN <= 90 <= INT_MAX) by (unfold INT_MIN, INT_MAX; lia).
  assert (Hlen : (String.length "90" < 32)%nat) by (simpl; lia).
  assert (Hparse : kstrtoint (c_str "90") = KOk 90) by reflexivity.
  destruct (servo_write_sets_angle attached 90 Hint) as [_ Hw].
  apply (Hw "90" Hlen Hparse). lia.
Defined.

Lemma servo_pulse_width_witness :
  duty_cycle_of 180 = 2500 /\
  trace (snd (gpio_write 0 "180" attached)) =
    trace attached ++ [GpioSetValue 18 1; Udelay 2500; GpioSetValue 18 0; Udelay 17500].
Proof.
  assert (Hlen : (String.length "180" < 32)%nat) by (simpl; lia).
  assert (Hparse : kstrtoint (c_str "180") = KOk 180) by reflexivity.
  assert (Ha : 0 <= 180 <= 180) by lia.
  destruct (servo_pulse_width attached "180" 180 Hlen Hparse Ha) as (H1 & H2 & _).
  split; [exact H1 | exact H2].
Defined.

Lemma write_refusals_witness :
  fst (gpio_write 7 "1" attached) = - EINVAL /\
  unchanged_but_log attached (snd (gpio_write 7 "1" attached)).
Proof.
  assert (Hbad : refused_write 7 "1") by (left; right; lia).
  destruct (write_refusals 7 "1" attached Hbad) as (H1 & H2 & _).
  split; [exact H1 | exact H2].
Defined.

(** ** The stepper sequencer *)

Lemma stepper_ready_set_value (gpio value : Z) (k : kstate) :
  stepper_ready k -> stepper_ready (gpio_set_value gpio value k).
Proof. intros H m Hm. exact (H m Hm). Qed.

Lemma stepper_ready_emit (e : kevent) (k : kstate) :
  stepper_ready k -> stepper_ready (emit e k).
Proof. intros H m Hm. exact (H m Hm). Qed.

#[local] Hint Resolve stepper_ready_set_value stepper_ready_emit : drv.

Lemma gpio_write_phase (m v : Z) (payload : string) (k : kstate) :
  1 <= m <= 4 -> v = 0 \/ v = 1 ->
  (String.length payload < 32)%nat ->
  kstrtoint (c_str payload) = KOk v ->
  gpio_write m payload k =
  (Z.of_nat (String.length payload),
   gpio_set_value (stepper_gpio_base + (m - 1)) v k).
Proof.
  intros Hm Hv Hlen Hparse. unfold gpio_write.
  rewrite (count_fits _ Hlen). simpl.
  destruct (Z.eqb_spec m 0); [lia|].
  destruct (Z.geb_spec m 1), (Z.leb_spec m 4); simpl; try lia.
  rewrite Hparse. destruct Hv as [-> | ->]; reflexivity.
Qed.

Lemma writeStepperPin_ready (device : string) (m v : Z) (k : kstate) :
  dev_minor device = Some m -> 1 <= m <= 4 -> v = 0 \/ v = 1 ->
  stepper_ready k ->
  writeStepperPin device v k = (0, gpio_set_value (stepper_gpio_base + (m - 1)) v k).
Proof.
  intros Hdev Hm Hv Hready. unfold writeStepperPin, open_wronly.
  rewrite Hdev. destruct (decide _) as [_|Hno]; [|exfalso; apply Hno, Hready, Hm].
  unfold write_fd.
  destruct Hv as [-> | ->].
  - change (c_str (fst (snprintf 2 (fmt_d 0)))) with "0".
    rewrite (gpio_write_phase m 0 "0" k Hm) by (auto; simpl; lia). reflexivity.
  - change (c_str (fst (snprintf 2 (fmt_d 1)))) with "1".
    rewrite (gpio_write_phase m 1 "1" k Hm) by (auto; simpl; lia). reflexivity.
Qed.

Lemma stepSequence_at_bit (row col : Z) :
  stepSequence_at row col = 0 \/ stepSequence_at row col = 1.
Proof.
  unfold stepSequence_at.
  destruct (Z.to_nat row) as [|[|[|[|r]]]];
    destruct (Z.to_nat col) as [|[|[|[|c]]]]; simpl; auto.
Qed.

Lemma write_four_pins (v0 v1 v2 v3 : Z) (k : kstate) :
  stepper_ready k ->
  (v0 = 0 \/ v0 = 1) -> (v1 = 0 \/ v1 = 1) -> (v2 = 0 \/ v2 = 1) -> (v3 = 0 \/ v3 = 1) ->
  snd (writeStepperPin STEPPER_DEV4 v3
        (snd (writeStepperPin STEPPER_DEV3 v2
          (snd (writeStepperPin STEPPER_DEV2 v1
            (snd (writeStepperPin STEPPER_DEV1 v0 k)))))))
  = apply_row v0 v1 v2 v3 k.
Proof.
  intros Hr H0 H1 H2 H3. unfold apply_row.
  rewrite (writeStepperPin_ready STEPPER_DEV1 1 v0 k) by (auto; reflexivity || lia).
  simpl snd.
  rewrite (writeStepperPin_ready STEPPER_DEV2 2 v1) by (auto with drv; reflexivity || lia).
  simpl snd.
  rewrite (writeStepperPin_ready STEPPER_DEV3 3 v2) by (auto with drv; reflexivity || lia).
  simpl snd.
  rewrite (writeStepperPin_ready STEPPER_DEV4 4 v3) by (auto 6 with drv; reflexivity || lia).
  reflexivity.
Qed.

Lemma trace_emit (e : kevent) (k : kstate) : trace (emit e k) = trace k ++ [e].
Proof. reflexivity. Qed.

Lemma apply_row_ready (v0 v1 v2 v3 : Z) (k : kstate) :
  stepper_ready k -> stepper_ready (apply_row v0 v1 v2 v3 k).
Proof. intros H. unfold apply_row. auto 6 with drv. Qed.

Lemma apply_row_trace (v0 v1 v2 v3 : Z) (k : kstate) :
  trace (apply_row v0 v1 v2 v3 k) =
  trace k ++ [GpioSetValue 22 v0; GpioSetValue 23 v1; GpioSetValue 24 v2; GpioSetValue 25 v3].
Proof. unfold apply_row. simpl. rewrite <- !app_assoc. reflexivity. Qed.

Lemma apply_row_levels (v0 v1 v2 v3 : Z) (k : kstate) :
  gpio_get_value 22 (apply_row v0 v1 v2 v3 k) = (if v0 =? 0 then 0 else 1) /\
  gpio_get_value 23 (apply_row v0 v1 v2 v3 k) = (if v1 =? 0 then 0 else 1) /\
  gpio_get_value 24 (apply_row v0 v1 v2 v3 k) = (if v2 =? 0 then 0 else 1) /\
  gpio_get_value 25 (apply_row v0 v1 v2 v3 k) = (if v3 =? 0 then 0 else 1).
Proof.
  unfold apply_row, gpio_get_value, gpio_set_value. simpl.
  repeat split; simplify_map_eq;
    [destruct (v0 =? 0)|destruct (v1 =? 0)|destruct (v2 =? 0)|destruct (v3 =? 0)];
    reflexivity.
Qed.

Lemma rotate_step_ready (clockwise i : Z) (k : kstate) :
  stepper_ready k ->
  rotate_step clockwise i k =
  emit (Usleep STEP_DELAY_US)
       (apply_row (stepSequence_at (stepIndex clockwise i) 0)
                  (stepSequence_at (stepIndex clockwise i) 1)
                  (stepSequence_at (stepIndex clockwise i) 2)
                  (stepSequence_at (stepIndex clockwise i) 3) k).
Proof.
  intros Hr. unfold rotate_step. cbv zeta.
  rewrite write_four_pins by (auto using stepSequence_at_bit). reflexivity.
Qed.

Lemma resetStepper_ready (k : kstate) :
  stepper_ready k -> resetStepper k = apply_row 0 0 0 0 k.
Proof.
  intros Hr. unfold resetStepper. cbv zeta.
  apply write_four_pins; auto.
Qed.

Lemma rotate_step_trace (clockwise i : Z) (k : kstate) :
  stepper_ready k ->
  trace (rotate_step clockwise i k) = trace k ++ step_events clockwise i /\
  stepper_ready (rotate_step clockwise i k).
Proof.
  intros Hr. rewrite rotate_step_ready by assumption. split.
  - rewrite trace_emit, apply_row_trace, <- app_assoc. reflexivity.
  - apply stepper_ready_emit, apply_row_ready, Hr.
Qed.

Lemma rotate_loop_trace (steps clockwise : Z) (n : nat) :
  forall (i : Z) (k : kstate),
    Z.to_nat (steps - i) = n ->
    stepper_ready k ->
    let r := for_up steps (fun i k => (0, rotate_step clockwise i k)) i k in
    trace (snd r) = trace k ++ (seqZ i (steps - i) ≫= step_events clockwise) /\
    stepper_ready (snd r).
Proof.
  induction n as [|n IH]; intros i k Hn Hr; cbv zeta; rewrite for_up_step.
  - destruct (decide (i < steps)); [lia|]. simpl.
    rewrite seqZ_nil by lia. simpl. rewrite app_nil_r. auto.
  - destruct (decide (i < steps)); [|lia]. simpl fst. simpl snd.
    destruct (decide (0 = 0)); [|congruence].
    destruct (rotate_step_trace clockwise i k Hr) as [Ht Hr'].
    destruct (IH (i + 1) (rotate_step clockwise i k) ltac:(lia) Hr') as [IHt IHr].
    split; [|exact IHr].
    rewrite IHt, Ht. rewrite (seqZ_cons i (steps - i)) by lia.
    simpl. rewrite <- app_assoc.
    replace (Z.succ i) with (i + 1) by lia.
    replace (Z.pred (steps - i)) with (steps - (i + 1)) by lia.
    reflexivity.
Qed.

Lemma stepIndex_formula (clockwise i : Z) :
  0 <= i ->
  stepIndex clockwise i = (if clockwise =? 0 then 3 - i mod 4 else i mod 4) /\
  0 <= stepIndex clockwise i <= 3.
Proof.
  intros Hi. unfold stepIndex, int_rem, int_sub.
  rewrite Z.rem_mod_nonneg by lia.
  pose proof (Z.mod_pos_bound i 4 ltac:(lia)) as Hb.
  destruct (clockwise =? 0); simpl.
  - rewrite wrap32_small by (unfold INT_MIN, INT_MAX; lia). lia.
  - lia.
Qed.

Lemma spec_row_stepIndex (clockwise i : Z) :
  0 <= i -> stepIndex clockwise i = spec_row (negb (clockwise =? 0)) i.
Proof.
  intros Hi. destruct (stepIndex_formula clockwise i Hi) as [-> _].
  unfold spec_row. destruct (clockwise =? 0); reflexivity.
Qed.

Lemma rotateStepper_ready (steps clockwise : Z) (k : kstate) :
  stepper_ready k ->
  let k1 := snd (for_up steps (fun i k => (0, rotate_step clockwise i k)) 0 k) in
  snd (rotateStepper steps clockwise k) = apply_row 0 0 0 0 k1 /\
  trace k1 = trace k ++ (seqZ 0 steps ≫= step_events clockwise) /\
  stepper_ready k1.
Proof.
  intros Hr k1.
  destruct (rotate_loop_trace steps clockwise (Z.to_nat (steps - 0)) 0 k eq_refl Hr)
    as [Ht Hr1].
  rewrite Z.sub_0_r in Ht. fold k1 in Ht, Hr1.
  split; [|split; assumption].
  unfold rotateStepper. fold k1.
  destruct (for_up steps _ 0 k) as [[i err] k2]. simpl in k1. subst k1.
  simpl. apply resetStepper_ready, Hr1.
Qed.

Lemma list_bind_ext_in {A B : Type} (f g : A -> list B) (l : list A) :
  (forall x, x ∈ l -> f x = g x) -> l ≫= f = l ≫= g.
Proof.
  induction l as [|a l IH]; intros H; [reflexivity|].
  rewrite !bind_cons, (H a) by (left; reflexivity).
  rewrite IH; [reflexivity|]. intros x Hx. apply H. right. exact Hx.
Qed.

(** C3.  With the four phase devices in place, [rotateStepper n clockwise]
    writes, at step [i] of 0..n-1, row [i mod 4] of the table to the four
    phase lines when [clockwise] is true (non-zero) and row
    [3 - i mod 4] when it is false, sleeps 2000 us after each step, and
    ends with the de-energize pass.  The two directions use mirrored row
    indices; for 8 steps the rows are 0,1,2,3,0,1,2,3 and
    3,2,1,0,3,2,1,0. *)
Theorem rotate_visits_rows (n clockwise : Z) (k : kstate) :
  stepper_ready k ->
  trace (snd (rotateStepper n clockwise k)) =
    trace k
    ++ (seqZ 0 n ≫= fun i =>
          row_writes (spec_row (negb (clockwise =? 0)) i) ++ [Usleep 2000])
    ++ row_writes_off
  /\ (forall i, 0 <= i < n ->
        stepIndex 1 i = i mod 4 /\ stepIndex 0 i = 3 - i mod 4 /\
        stepIndex 0 i = 3 - stepIndex 1 i)
  /\ map (stepIndex 1) (seqZ 0 8) = [0; 1; 2; 3; 0; 1; 2; 3]
  /\ map (stepIndex 0) (seqZ 0 8) = [3; 2; 1; 0; 3; 2; 1; 0].
Proof.
  intros Hr. split; [|split; [|split; reflexivity]].
  - destruct (rotateStepper_ready n clockwise k Hr) as (-> & Ht & _).
    rewrite apply_row_trace, Ht, <- app_assoc. f_equal. f_equal.
    apply list_bind_ext_in. intros i Hi. apply elem_of_seqZ in Hi.
    unfold step_events. rewrite spec_row_stepIndex by lia. reflexivity.
  - intros i Hi.
    destruct (stepIndex_formula 1 i ltac:(lia)) as [H1 _].
    destruct (stepIndex_formula 0 i ltac:(lia)) as [H0 _].
    simpl in H1, H0. rewrite H1, H0. auto.
Qed.

Lemma rotate_visits_rows_witness :
  trace (snd (rotateStepper 2 0 attached)) =
    [GpioSetValue 22 0; GpioSetValue 23 0; GpioSetValue 24 1; GpioSetValue 25 1;
     Usleep 2000;
     GpioSetValue 22 0; GpioSetValue 23 1; GpioSetValue 24 1; GpioSetValue 25 0;
     Usleep 2000;
     GpioSetValue 22 0; GpioSetValue 23 0; GpioSetValue 24 0; GpioSetValue 25 0].
Proof.
  assert (Hr : stepper_ready attached).
  { intros m Hm. assert (Hc : m = 1 \/ m = 2 \/ m = 3 \/ m = 4) by lia.
    destruct Hc as [-> | [-> | [-> | ->]]]; split; vm_compute; reflexivity. }
  destruct (rotate_visits_rows 2 0 attached Hr) as [Ht _].
  exact Ht.
Defined.

Lemma read_text_phase_low (m : Z) (k : kstate) :
  1 <= m <= 4 ->
  gpio_get_value (stepper_gpio_base + (m - 1)) k = 0 ->
  gpio_read m 64 0 k =
  (17, "Stepper pin " +:+ fmt_d m +:+ ": 0" +:+ nl, 17, k).
Proof.
  intros Hm Hlow.
  pose proof (gpio_read_at_start m 64 k ltac:(lia) ltac:(lia) ltac:(lia)) as H.
  cbv zeta in H. rewrite H. unfold read_text.
  destruct (Z.eqb_spec m 0); [lia|]. rewrite Hlow.
  assert (Hc : m = 1 \/ m = 2 \/ m = 3 \/ m = 4) by lia.
  destruct Hc as [-> | [-> | [-> | ->]]]; reflexivity.
Qed.

(** C4.  With the four phase devices in place, for every step count
    (zero and negative counts too) and either direction, the last four
    events of [rotateStepper] are a write of 0 to each phase line, so each
    line is low afterwards and reads back as 0 through its endpoint; with
    no steps to make, the de-energize pass is all that happens. *)
Theorem rotate_deenergizes (steps clockwise : Z) (k : kstate) :
  stepper_ready k ->
  let k' := snd (rotateStepper steps clockwise k) in
  fst (rotateStepper steps clockwise k) = 0 /\
  (exists before, trace k' = before ++ row_writes_off) /\
  (forall m, 1 <= m <= 4 ->
     gpio_get_value (stepper_gpio_base + (m - 1)) k' = 0 /\
     read_bytes (gpio_read m 64 0 k') = "Stepper pin " +:+ fmt_d m +:+ ": 0" +:+ nl) /\
  (steps <= 0 -> trace k' = trace k ++ row_writes_off).
Proof.
  intros Hr k'.
  destruct (rotateStepper_ready steps clockwise k Hr) as (Hk' & Ht & _).
  fold k' in Hk'.
  assert (Hlow : forall m, 1 <= m <= 4 ->
            gpio_get_value (stepper_gpio_base + (m - 1)) k' = 0).
  { intros m Hm. rewrite Hk'.
    destruct (apply_row_levels 0 0 0 0
                (snd (for_up steps (fun i k => (0, rotate_step clockwise i k)) 0 k)))
      as (L0 & L1 & L2 & L3).
    assert (Hc : m = 1 \/ m = 2 \/ m = 3 \/ m = 4) by lia.
    destruct Hc as [-> | [-> | [-> | ->]]]; assumption. }
  split; [|split; [|split]].
  - unfold rotateStepper. destruct (for_up steps _ 0 k) as [[i err] k2]. reflexivity.
  - rewrite Hk', apply_row_trace. eexists. reflexivity.
  - intros m Hm. split; [apply Hlow, Hm|].
    rewrite (read_text_phase_low m k' Hm (Hlow m Hm)). reflexivity.
  - intros Hs. rewrite Hk', apply_row_trace, Ht, seqZ_nil by lia.
    simpl. rewrite app_nil_r. reflexivity.
Qed.

Lemma rotate_deenergizes_witness :
  trace (snd (rotateStepper 0 1 attached)) = trace attached ++ row_writes_off /\
  gpio_get_value 22 (snd (rotateStepper 50 1 attached)) = 0.
Proof.
  assert (Hr : stepper_ready attached).
  { intros m Hm. assert (Hc : m = 1 \/ m = 2 \/ m = 3 \/ m = 4) by lia.
    destruct Hc as [-> | [-> | [-> | ->]]]; split; vm_compute; reflexivity. }
  split.
  - destruct (rotate_deenergizes 0 1 attached Hr) as (_ & _ & _ & H0).
    apply H0. lia.
  - destruct (rotate_deenergizes 50 1 attached Hr) as (_ & _ & Hm & _).
    destruct (Hm 1 ltac:(lia)) as [Hlow _]. exact Hlow.
Defined.

(** ** Probe: acquiring the lines and rolling back *)

Lemma for_down_invariant {S : Type} (P : S -> Prop) (body : Z -> S -> S) :
  (forall i s, P s -> P (body i s)) ->
  forall i s, P s -> P (snd (for_down body i s)).
Proof.
  intros Hbody i s. remember (Z.to_nat (i + 1)) as n eqn:Hn.
  revert i s Hn. induction n as [|n IH]; intros i s Hn Hs;
    rewrite for_down_step; destruct (decide (0 <= i)); simpl; try lia; auto.
  apply IH; [lia|]. apply Hbody, Hs.
Qed.

Lemma for_up_invariant {S : Type} (P : S -> Prop) (bound : Z) (body : Z -> S -> Z * S) :
  (forall i s, P s -> P (snd (body i s))) ->
  forall i s, P s -> P (snd (for_up bound body i s)).
Proof.
  intros Hbody i s. remember (Z.to_nat (bound - i)) as n eqn:Hn.
  revert i s Hn. induction n as [|n IH]; intros i s Hn Hs;
    rewrite for_up_step; destruct (decide (i < bound)); simpl; try lia; auto.
  destruct (decide (fst (body i s) = 0)); simpl.
  - apply IH; [lia|]. apply Hbody, Hs.
  - apply Hbody, Hs.
Qed.

Lemma gpio_request_one_spec (env : kenv) (gpio : Z) (k : kstate) :
  (line_available env k gpio /\
   gpio_request_one env gpio k =
     (0, set_gpio_level (<[gpio := false]> (gpio_level k))
           (set_gpio_owner (<[gpio := ThisDriver]> (gpio_owner k)) k))) \/
  (~ line_available env k gpio /\
   fst (gpio_request_one env gpio k) <> 0 /\
   snd (gpio_request_one env gpio k) = k).
Proof.
  unfold gpio_request_one, line_available.
  destruct (gpio_is_valid env gpio); simpl.
  - destruct (gpio_owner k !! gpio) as [o|] eqn:E.
    + right. split; [intros [_ H]; discriminate|]. split; [discriminate|reflexivity].
    + left. auto.
  - right. split; [intros [H _]; discriminate|]. split; [discriminate|reflexivity].
Qed.

Lemma same_chrdev_refl (k : kstate) : same_chrdev k k.
Proof. repeat split. Qed.

Lemma same_chrdev_trans (k1 k2 k3 : kstate) :
  same_chrdev k1 k2 -> same_chrdev k2 k3 -> same_chrdev k1 k3.
Proof.
  unfold same_chrdev. intros (A1 & A2 & A3 & A4 & A5 & A6) (B1 & B2 & B3 & B4 & B5 & B6).
  repeat split; congruence.
Qed.

Lemma request_body_spec (env : kenv) (i : Z) (k : kstate) :
  same_chrdev k (snd (request_body env i k)) /\
  ((line_available env k (stepper_gpio_base + i) /\
    fst (request_body env i k) = 0 /\
    gpio_owner (snd (request_body env i k)) =
      <[stepper_gpio_base + i := ThisDriver]> (gpio_owner k)) \/
   (~ line_available env k (stepper_gpio_base + i) /\
    fst (request_body env i k) <> 0 /\
    gpio_owner (snd (request_body env i k)) = gpio_owner k)).
Proof.
  unfold request_body.
  destruct (gpio_request_one_spec env (stepper_gpio_base + i) k)
    as [[Hav ->] | (Hno & Herr & Hk)].
  - simpl. split; [repeat split|]. left. auto.
  - destruct (gpio_request_one env (stepper_gpio_base + i) k) as [err k1].
    simpl in Herr, Hk. subst k1.
    destruct (Z.eqb_spec err 0); [contradiction|]. simpl.
    split; [repeat split|]. right. auto.
Qed.

Lemma request_loop_spec (env : kenv) (m0 : gmap Z owner) (n : nat) :
  forall (i : Z) (k : kstate),
    Z.to_nat (4 - i) = n -> 0 <= i <= 4 ->
    owners_taken m0 i (gpio_owner k) -> lines_free m0 i ->
    let r := for_up 4 (request_body env) i k in
    let j := fst (fst r) in
    let err := snd (fst r) in
    i <= j <= 4 /\
    owners_taken m0 j (gpio_owner (snd r)) /\ lines_free m0 j /\
    same_chrdev k (snd r) /\
    (forall g, 22 + i <= g < 22 + j -> gpio_is_valid env g = true) /\
    (err = 0 -> j = 4) /\
    (err <> 0 -> j < 4 /\
       (gpio_is_valid env (22 + j) = false \/ m0 !! (22 + j) <> None)).
Proof.
  induction n as [|n IH]; intros i k Hn Hi Htaken Hfree; cbv zeta; rewrite for_up_step.
  - destruct (decide (i < 4)); [lia|]. simpl.
    repeat split; auto using same_chrdev_refl; try lia; try congruence.
  - destruct (decide (i < 4)); [|lia].
    destruct (request_body_spec env i k) as [Hsame [(Hav & Herr & Hown) | (Hno & Herr & Hown)]].
    + destruct (decide (fst (request_body env i k) = 0)); [|contradiction].
      destruct Hav as [Hvalid Hnone].
      unfold stepper_gpio_base, STEPPER_GPIO_BASE in *.
      assert (Hm0 : m0 !! (22 + i) = None).
      { rewrite <- Hnone, Htaken. destruct (decide _); [lia|reflexivity]. }
      assert (Htaken' : owners_taken m0 (i + 1) (gpio_owner (snd (request_body env i k)))).
      { intros g. rewrite Hown. destruct (decide (g = 22 + i)) as [->|Hne].
        - rewrite lookup_insert_eq. destruct (decide _); [reflexivity|lia].
        - rewrite lookup_insert_ne by congruence. rewrite Htaken.
          destruct (decide (22 <= g < 22 + i)), (decide (22 <= g < 22 + (i + 1)));
            try reflexivity; lia. }
      assert (Hfree' : lines_free m0 (i + 1)).
      { intros g Hg. destruct (decide (g = 22 + i)) as [->|Hne]; [exact Hm0|].
        apply Hfree. lia. }
      destruct (IH (i + 1) (snd (request_body env i k)) ltac:(lia) ltac:(lia) Htaken' Hfree')
        as (Hj & Ht & Hf & Hs & Hv & He0 & He1).
      split; [lia|]. split; [exact Ht|]. split; [exact Hf|].
      split; [eapply same_chrdev_trans; eassumption|].
      split; [|split; [exact He0|exact He1]].
      intros g Hg. destruct (decide (g = 22 + i)) as [->|Hne]; [exact Hvalid|].
      apply Hv. lia.
    + destruct (decide (fst (request_body env i k) = 0)); [contradiction|]. simpl.
      unfold stepper_gpio_base, STEPPER_GPIO_BASE in *.
      split; [lia|]. split; [intros g; rewrite Hown; apply Htaken|].
      split; [exact Hfree|]. split; [exact Hsame|].
      split; [intros g Hg; lia|]. split; [intros Hz; contradiction|].
      intros _. split; [lia|].
      unfold line_available in Hno.
      destruct (gpio_is_valid env (22 + i)) eqn:Ev; [|left; reflexivity].
      right. intros Hm0. apply Hno. split; [reflexivity|].
      rewrite Htaken. destruct (decide _); [lia|exact Hm0].
Qed.

Lemma stepper_frees_step (i : Z) :
  0 <= i -> stepper_frees (i + 1) = GpioFree (22 + i) :: stepper_frees i.
Proof.
  intros Hi. unfold stepper_frees.
  rewrite (seqZ_app 22 i 1) by lia.
  rewrite reverse_app. reflexivity.
Qed.

Lemma free_loop_spec (m0 : gmap Z owner) (n : nat) :
  forall (i : Z) (k : kstate),
    Z.to_nat (i + 1) = n -> -1 <= i ->
    owners_taken m0 (i + 1) (gpio_owner k) -> lines_free m0 (i + 1) ->
    let r := for_down free_body i k in
    fst r = -1 /\
    gpio_owner (snd r) = m0 /\
    trace (snd r) = trace k ++ stepper_frees (i + 1) /\
    same_but_lines k (snd r).
Proof.
  induction n as [|n IH]; intros i k Hn Hi Htaken Hfree; cbv zeta; rewrite for_down_step.
  - destruct (decide (0 <= i)); [lia|]. simpl.
    assert (i = -1) as -> by lia.
    split; [reflexivity|]. split; [|split; [|repeat split]].
    + apply map_eq. intros g. rewrite Htaken.
      destruct (decide _); [lia|reflexivity].
    + simpl. rewrite app_nil_r. reflexivity.
  - destruct (decide (0 <= i)); [|lia].
    assert (Htaken' : owners_taken m0 (i - 1 + 1) (gpio_owner (free_body i k))).
    { intros g. unfold free_body, gpio_free. simpl.
      unfold stepper_gpio_base, STEPPER_GPIO_BASE.
      destruct (decide (g = 22 + i)) as [->|Hne].
      - rewrite lookup_delete_eq. destruct (decide _); [lia|].
        symmetry. apply Hfree. lia.
      - rewrite lookup_delete_ne by congruence. rewrite Htaken.
        destruct (decide (22 <= g < 22 + (i + 1))), (decide (22 <= g < 22 + (i - 1 + 1)));
          try reflexivity; lia. }
    assert (Hfree' : lines_free m0 (i - 1 + 1)).
    { intros g Hg. apply Hfree. lia. }
    destruct (IH (i - 1) (free_body i k) ltac:(lia) ltac:(lia) Htaken' Hfree')
      as (Hidx & Hown & Htr & Hsame).
    split; [exact Hidx|]. split; [exact Hown|]. split; [|exact Hsame].
    rewrite Htr. unfold free_body at 1, gpio_free, stepper_gpio_base, STEPPER_GPIO_BASE.
    rewrite trace_emit. simpl trace.
    rewrite (stepper_frees_step i) by lia.
    replace (i - 1 + 1) with i by lia.
    rewrite <- app_assoc. reflexivity.
Qed.

Lemma cleanup_cdev_none (i err : Z) (k : kstate) :
  i <= 0 ->
  cleanup_cdev i err k = (err, unregister_chrdev_region (class_destroy k)).
Proof.
  intros Hi. unfold cleanup_cdev. rewrite for_down_none by lia. reflexivity.
Qed.

Lemma cleanup_cdev_owner (i err : Z) (k : kstate) :
  fst (cleanup_cdev i err k) = err /\
  gpio_owner (snd (cleanup_cdev i err k)) = gpio_owner k.
Proof.
  unfold cleanup_cdev.
  pose proof (for_down_invariant (fun k' => gpio_owner k' = gpio_owner k)
                (fun i k => cdev_del i (device_destroy i k))
                ltac:(intros j s Hs; exact Hs) (i - 1) k eq_refl) as Hinv.
  destruct (for_down _ (i - 1) k) as [i' k']. simpl in Hinv.
  simpl. auto.
Qed.

(** What the rollback of the lines leaves behind, when it starts after [j]
    stepper lines and the servo line were taken from the owner map
    [morig]. *)
Lemma cleanup_gpio_spec (morig : gmap Z owner) (j err : Z) (k : kstate) :
  0 <= j -> morig !! 18 = None ->
  owners_taken (<[18 := ThisDriver]> morig) j (gpio_owner k) ->
  lines_free (<[18 := ThisDriver]> morig) j ->
  let r := cleanup_gpio j err k in
  fst r = err /\
  gpio_owner (snd r) = morig /\
  trace (snd r) =
    trace k ++ stepper_frees j ++ [GpioFree 18; ClassDestroy; UnregisterChrdevRegion] /\
  cdevs (snd r) = cdevs k /\ devices (snd r) = devices k /\
  gpio_class (snd r) = false /\ chrdev_region (snd r) = false.
Proof.
  intros Hj H18 Htaken Hfree. cbv zeta. unfold cleanup_gpio.
  change (fun i k => gpio_free (stepper_gpio_base + i) k) with free_body.
  replace j with (j - 1 + 1) in Htaken, Hfree by lia.
  destruct (free_loop_spec _ (Z.to_nat (j - 1 + 1)) (j - 1) k eq_refl ltac:(lia) Htaken Hfree)
    as (Hidx & Hown & Htr & Hsame).
  replace (j - 1 + 1) with j in Htr by lia.
  destruct (for_down free_body (j - 1) k) as [i' k1]. simpl in Hidx, Hown, Htr, Hsame.
  subst i'. rewrite cleanup_cdev_none by lia.
  destruct Hsame as (S1 & S2 & S3 & S4 & S5 & S6).
  simpl. rewrite Hown, Htr, S3, S4.
  split; [reflexivity|]. split; [|split; [|repeat split]].
  - unfold servo_gpio, SERVO_GPIO. rewrite delete_insert_eq. apply delete_id. exact H18.
  - unfold servo_gpio, SERVO_GPIO. rewrite <- !app_assoc. reflexivity.
Qed.

Lemma same_but_nodes_trans (k1 k2 k3 : kstate) :
  same_but_nodes k1 k2 -> same_but_nodes k2 k3 -> same_but_nodes k1 k3.
Proof.
  unfold same_but_nodes.
  intros (A1 & A2 & A3 & A4 & A5 & A6) (B1 & B2 & B3 & B4 & B5 & B6).
  repeat split; congruence.
Qed.

Lemma create_body_spec (env : kenv) (i : Z) (k : kstate) :
  same_but_nodes k (snd (create_body env i k)) /\
  ((cdev_add_err env i = 0 /\ fst (create_body env i k) = 0 /\
    cdevs (snd (create_body env i k)) = {[i]} ∪ cdevs k /\
    devices (snd (create_body env i k)) = {[i]} ∪ devices k) \/
   (cdev_add_err env i <> 0 /\ fst (create_body env i k) <> 0)).
Proof.
  unfold create_body, cdev_add.
  destruct (Z.eqb_spec (cdev_add_err env i) 0) as [Hz|Hnz]; simpl.
  - split; [repeat split|]. left. auto.
  - destruct (Z.eqb_spec (cdev_add_err env i) 0); [contradiction|]. simpl.
    split; [repeat split|]. right. auto.
Qed.

Lemma create_loop_spec (env : kenv) (n : nat) :
  forall (i : Z) (k : kstate),
    Z.to_nat (5 - i) = n -> 0 <= i <= 5 ->
    let r := for_up MAX_DEVICES (create_body env) i k in
    same_but_nodes k (snd r) /\
    ((forall m, i <= m < 5 -> cdev_add_err env m = 0) ->
       r.1.2 = 0 /\ r.1.1 = 5 /\
       (forall m, m ∈ cdevs (snd r) <-> i <= m < 5 \/ m ∈ cdevs k) /\
       (forall m, m ∈ devices (snd r) <-> i <= m < 5 \/ m ∈ devices k)).
Proof.
  unfold MAX_DEVICES.
  induction n as [|n IH]; intros i k Hn Hi; cbv zeta; rewrite for_up_step.
  - destruct (decide (i < 5)); [lia|]. simpl.
    split; [repeat split|]. intros _.
    split; [reflexivity|]. split; [lia|].
    split; intros m; (split; [auto|intros [H|H]; [lia|exact H]]).
  - destruct (decide (i < 5)); [|lia].
    destruct (create_body_spec env i k) as [Hsame [(He & Hf & Hc & Hd) | (He & Hf)]].
    + destruct (decide (fst (create_body env i k) = 0)); [|contradiction].
      destruct (IH (i + 1) (snd (create_body env i k)) ltac:(lia) ltac:(lia))
        as [Hsame' Hall].
      split; [eapply same_but_nodes_trans; eassumption|].
      intros Hok. destruct Hall as (A1 & A2 & A3 & A4); [intros m Hm; apply Hok; lia|].
      split; [exact A1|]. split; [exact A2|].
      split; intros m; [rewrite A3, Hc|rewrite A4, Hd];
        rewrite elem_of_union, elem_of_singleton; intuition lia.
    + destruct (decide (fst (create_body env i k) = 0)); [contradiction|]. simpl.
      split; [exact Hsame|]. intros Hok. exfalso. apply He, Hok. lia.
Qed.

(** The two ways [plat_drv_probe] can end, as far as the lines go: it
    fails and the owner map is what it was, or it succeeds, all five lines
    were available and are now held by the driver. *)
Lemma probe_cases (env : kenv) (k : kstate) :
  let r := plat_drv_probe env k in
  (fst r <> 0 /\ gpio_owner (snd r) = gpio_owner k) \/
  (fst r = 0 /\
   (forall g, g ∈ pin_group -> line_available env k g) /\
   (forall g, gpio_owner (snd r) !! g =
              if decide (g ∈ pin_group) then Some ThisDriver else gpio_owner k !! g)).
Proof.
  cbv zeta. unfold plat_drv_probe.
  unfold alloc_chrdev_region.
  destruct (Z.eqb_spec (alloc_chrdev_region_err env) 0) as [Ha|Ha].
  2:{ destruct (Z.eqb_spec (alloc_chrdev_region_err env) 0); [contradiction|].
      left. split; [exact Ha|reflexivity]. }
  simpl negb. cbv iota. unfold class_create.
  destruct (Z.eqb_spec (class_create_err env) 0) as [Hc|Hc].
  2:{ destruct (Z.eqb_spec (class_create_err env) 0); [contradiction|].
      left. split; [exact Hc|reflexivity]. }
  simpl negb. cbv iota.
  change (fun i k => let '(err, k0) := cdev_add env i k in
            if negb (err =? 0)
            then (err, printk ("Failed to add cdev " +:+ fmt_d i +:+ nl) k0)
            else (0, printk ("Created /dev/plat_drv" +:+ fmt_d i +:+ nl)
                       (device_create i k0)))
    with (create_body env).
  change (fun i k => let '(err, k0) := gpio_request_one env (stepper_gpio_base + i) k in
            if negb (err =? 0)
            then (err, printk ("Failed to request Stepper GPIO "
                               +:+ fmt_d (stepper_gpio_base + i) +:+ nl) k0)
            else (0, k0))
    with (request_body env).
  match goal with |- context [for_up MAX_DEVICES (create_body env) 0 ?k0] =>
    set (k2 := k0) end.
  destruct (create_loop_spec env (Z.to_nat (5 - 0)) 0 k2 eq_refl ltac:(lia))
    as [Hnodes _].
  destruct (for_up MAX_DEVICES (create_body env) 0 k2) as [[i err] k3].
  simpl in Hnodes. destruct Hnodes as (_ & _ & Hown3 & _).
  change (gpio_owner k2) with (gpio_owner k) in Hown3.
  destruct (Z.eqb_spec err 0) as [->|Herr]; simpl negb; cbv iota.
  2:{ left. destruct (cleanup_cdev_owner i err k3) as [-> ->]. auto. }
  destruct (gpio_request_one_spec env servo_gpio k3) as [[Hav Hreq] | (Hno & Hfail & Hk)].
  2:{ destruct (gpio_request_one env servo_gpio k3) as [serr k4].
      simpl in Hfail, Hk. subst k4.
      destruct (Z.eqb_spec serr 0); [contradiction|]. simpl negb. cbv iota.
      left. match goal with |- context [cleanup_cdev i serr ?k0] =>
        destruct (cleanup_cdev_owner i serr k0) as [-> ->] end.
      auto. }
  rewrite Hreq. simpl negb. cbv iota.
  match goal with |- context [for_up 4 (request_body env) 0 ?k0] =>
    set (k4 := k0) end.
  destruct Hav as [Hvalid18 Hfree18]. rewrite Hown3 in Hfree18.
  unfold servo_gpio, SERVO_GPIO in *.
  set (m0 := <[18 := ThisDriver]> (gpio_owner k)).
  assert (Htaken0 : owners_taken m0 0 (gpio_owner k4)).
  { intros g. subst k4 m0. simpl. rewrite Hown3.
    destruct (decide _); [lia|reflexivity]. }
  assert (Hfree0 : lines_free m0 0) by (intros g Hg; lia).
  destruct (request_loop_spec env m0 (Z.to_nat (4 - 0)) 0 k4 eq_refl ltac:(lia)
              Htaken0 Hfree0) as (Hj & Htaken & Hfree & _ & Hvalid & He0 & He1).
  destruct (for_up 4 (request_body env) 0 k4) as [[j rerr] k5].
  simpl in Hj, Htaken, Hfree, Hvalid, He0, He1.
  destruct (Z.eqb_spec rerr 0) as [->|Hrerr]; simpl negb; cbv iota.
  - right. specialize (He0 eq_refl). subst j.
    split; [reflexivity|]. split.
    + intros g Hg. unfold pin_group in Hg.
      assert (Hg' : g = 18 \/ 22 <= g < 22 + 4).
      { repeat (apply elem_of_cons in Hg as [->|Hg]; [lia|]).
        apply elem_of_nil in Hg. contradiction. }
      destruct Hg' as [->|Hg']; [split; assumption|].
      split; [apply Hvalid; lia|].
      specialize (Hfree g Hg'). subst m0.
      rewrite lookup_insert_ne in Hfree by lia. exact Hfree.
    + intros g. simpl. rewrite Htaken. subst m0. unfold pin_group.
      destruct (decide (22 <= g < 22 + 4)) as [Hin|Hout].
      * destruct (decide _) as [_|Hn]; [reflexivity|].
        exfalso. apply Hn.
        assert (Hg : g = 22 \/ g = 23 \/ g = 24 \/ g = 25) by lia.
        rewrite !elem_of_cons. lia.
      * destruct (decide (g = 18)) as [->|Hne].
        -- rewrite lookup_insert_eq. destruct (decide _) as [_|Hn]; [reflexivity|].
           exfalso. apply Hn. rewrite !elem_of_cons. lia.
        -- rewrite lookup_insert_ne by congruence.
           destruct (decide _) as [Hin|_]; [|reflexivity].
           exfalso. repeat (apply elem_of_cons in Hin as [->|Hin]; [lia|]).
           apply elem_of_nil in Hin. contradiction.
  - left.
    destruct (cleanup_gpio_spec (gpio_owner k) j rerr k5 ltac:(lia) Hfree18 Htaken Hfree)
      as (-> & -> & _). auto.
Qed.

(** C1.  A probe that fails leaves the owner map of the lines exactly as
    it found it: whatever it acquired in the call has been released, and a
    driver that held no line before holds none after.  A probe fails
    whenever one of the five lines (servo 18, phases 22..25) is not
    available, that is whenever one of the five requests fails. *)
Theorem probe_all_or_nothing (env : kenv) (k : kstate) :
  (fst (plat_drv_probe env k) <> 0 ->
     gpio_owner (snd (plat_drv_probe env k)) = gpio_owner k /\
     ((forall g, gpio_owner k !! g <> Some ThisDriver) ->
      forall g, gpio_owner (snd (plat_drv_probe env k)) !! g <> Some ThisDriver)) /\
  ((exists g, g ∈ pin_group /\ ~ line_available env k g) ->
     fst (plat_drv_probe env k) <> 0).
Proof.
  destruct (probe_cases env k) as [[Herr Hown] | (Hok & Hav & _)]; split.
  - intros _. split; [exact Hown|]. intros Hnone g. rewrite Hown. apply Hnone.
  - intros _. exact Herr.
  - intros Herr. contradiction.
  - intros (g & Hg & Hno). exfalso. apply Hno, Hav, Hg.
Qed.

Lemma probe_all_or_nothing_witness :
  fst (plat_drv_probe env_ok line24_busy) = - EBUSY /\
  gpio_owner (snd (plat_drv_probe env_ok line24_busy)) = gpio_owner line24_busy /\
  forall g, gpio_owner (snd (plat_drv_probe env_ok line24_busy)) !! g <> Some ThisDriver.
Proof.
  split; [vm_compute; reflexivity|].
  assert (Hfail : fst (plat_drv_probe env_ok line24_busy) <> 0)
    by (vm_compute; discriminate).
  destruct (probe_all_or_nothing env_ok line24_busy) as [Hrel _].
  destruct (Hrel Hfail) as [Hown Hnone].
  split; [exact Hown|]. apply Hnone.
  intros g. unfold line24_busy. simpl.
  destruct (decide (g = 24)) as [->|Hne].
  - rewrite lookup_insert_eq. discriminate.
  - rewrite lookup_insert_ne by congruence. rewrite lookup_empty. discriminate.
Defined.

(** The run of the probe when everything up to the stepper lines works,
    the first [j] stepper lines are available and the next one is not. *)
Lemma probe_stepper_failure (env : kenv) (k : kstate) (j : Z) :
  alloc_chrdev_region_err env = 0 ->
  class_create_err env = 0 ->
  (forall m, 0 <= m < 5 -> cdev_add_err env m = 0) ->
  line_available env k 18 ->
  0 <= j < 4 ->
  (forall i, 0 <= i < j -> line_available env k (22 + i)) ->
  ~ line_available env k (22 + j) ->
  let r := plat_drv_probe env k in
  fst r <> 0 /\
  gpio_owner (snd r) = gpio_owner k /\
  (forall m, m ∈ cdevs (snd r) <-> 0 <= m < 5 \/ m ∈ cdevs k) /\
  (forall m, m ∈ devices (snd r) <-> 0 <= m < 5 \/ m ∈ devices k) /\
  gpio_class (snd r) = false /\ chrdev_region (snd r) = false /\
  trace (snd r) =
    trace k ++ stepper_frees j ++ [GpioFree 18; ClassDestroy; UnregisterChrdevRegion].
Proof.
  intros Ha Hc Hcdev Hav18 Hj Hav Hno. cbv zeta. unfold plat_drv_probe.
  unfold alloc_chrdev_region. rewrite Ha, Z.eqb_refl. simpl negb. cbv iota.
  unfold class_create. rewrite Hc, Z.eqb_refl. simpl negb. cbv iota.
  change (fun i k => let '(err, k0) := cdev_add env i k in
            if negb (err =? 0)
            then (err, printk ("Failed to add cdev " +:+ fmt_d i +:+ nl) k0)
            else (0, printk ("Created /dev/plat_drv" +:+ fmt_d i +:+ nl)
                       (device_create i k0)))
    with (create_body env).
  change (fun i k => let '(err, k0) := gpio_request_one env (stepper_gpio_base + i) k in
            if negb (err =? 0)
            then (err, printk ("Failed to request Stepper GPIO "
                               +:+ fmt_d (stepper_gpio_base + i) +:+ nl) k0)
            else (0, k0))
    with (request_body env).
  match goal with |- context [for_up MAX_DEVICES (create_body env) 0 ?k0] =>
    set (k2 := k0) end.
  destruct (create_loop_spec env (Z.to_nat (5 - 0)) 0 k2 eq_refl ltac:(lia))
    as [Hnodes Hall].
  destruct (Hall Hcdev) as (Herr0 & Hi5 & Hcd & Hdv). clear Hall.
  destruct (for_up MAX_DEVICES (create_body env) 0 k2) as [[i err] k3].
  simpl in Hnodes, Herr0, Hi5, Hcd, Hdv. subst i err.
  destruct Hnodes as (_ & _ & Hown3 & _ & _ & Htr3).
  change (gpio_owner k2) with (gpio_owner k) in Hown3.
  change (trace k2) with (trace k) in Htr3.
  change (cdevs k2) with (cdevs k) in Hcd.
  change (devices k2) with (devices k) in Hdv.
  simpl negb. cbv iota.
  destruct Hav18 as [Hvalid18 Hfree18].
  destruct (gpio_request_one_spec env servo_gpio k3) as [[_ Hreq] | (Hno18 & _)].
  2:{ exfalso. apply Hno18. split; [exact Hvalid18|]. rewrite Hown3. exact Hfree18. }
  rewrite Hreq. simpl negb. cbv iota.
  match goal with |- context [for_up 4 (request_body env) 0 ?k0] =>
    set (k4 := k0) end.
  unfold servo_gpio, SERVO_GPIO in *.
  set (m0 := <[18 := ThisDriver]> (gpio_owner k)).
  assert (Htaken0 : owners_taken m0 0 (gpio_owner k4)).
  { intros g. subst k4 m0. simpl. rewrite Hown3.
    destruct (decide _); [lia|reflexivity]. }
  assert (Hfree0 : lines_free m0 0) by (intros g Hg; lia).
  assert (Hm0 : forall g, 22 <= g -> m0 !! g = gpio_owner k !! g).
  { intros g Hg. subst m0. apply lookup_insert_ne. lia. }
  destruct (request_loop_spec env m0 (Z.to_nat (4 - 0)) 0 k4 eq_refl ltac:(lia)
              Htaken0 Hfree0) as (Hj' & Htaken & Hfree & Hsame & Hvalid & He0 & He1).
  destruct (for_up 4 (request_body env) 0 k4) as [[j' rerr] k5].
  simpl in Hj', Htaken, Hfree, Hsame, Hvalid, He0, He1.
  assert (Hreached : forall g, 22 <= g < 22 + j' -> line_available env k g).
  { intros g Hg. split; [apply Hvalid; lia|]. rewrite <- Hm0 by lia. apply Hfree, Hg. }
  destruct (Z.eqb_spec rerr 0) as [->|Hrerr]; simpl negb; cbv iota.
  { exfalso. specialize (He0 eq_refl). subst j'. apply Hno, Hreached. lia. }
  destruct (He1 Hrerr) as [Hlt Hwhy].
  assert (j' = j) as ->.
  { destruct (Z.lt_trichotomy j' j) as [Hl | [He | Hg]]; [exfalso|exact He|exfalso].
    - destruct (Hav j' ltac:(lia)) as [Hv Hf].
      destruct Hwhy as [Hw|Hw]; [congruence|]. apply Hw. rewrite Hm0 by lia. exact Hf.
    - apply Hno, Hreached. lia. }
  destruct (cleanup_gpio_spec (gpio_owner k) j rerr k5 ltac:(lia) Hfree18 Htaken Hfree)
    as (-> & -> & -> & -> & -> & -> & ->).
  destruct Hsame as (_ & _ & -> & -> & _ & ->).
  subst k4. simpl. rewrite Htr3.
  repeat split; auto; try apply Hcd; try apply Hdv.
Qed.

(** C10.  When the device files were all created, the servo line was
    acquired and the request of a stepper line fails (after [j] of them
    were acquired), the probe returns the error with the owner map of the
    lines as it found it, and frees exactly the lines it had taken; but the
    five endpoints stay behind: minors 0..4 are still registered and still
    have their device nodes, and no device is destroyed and no cdev deleted
    in the trace, while the class and the number region are torn down.
    The reason is the shared loop variable: the loop that frees the lines
    always ends with index -1, and from there the teardown loop of the
    endpoints has nothing to do. *)
Theorem stepper_failure_keeps_endpoints (env : kenv) (k : kstate) (j : Z) :
  alloc_chrdev_region_err env = 0 ->
  class_create_err env = 0 ->
  (forall m, 0 <= m < 5 -> cdev_add_err env m = 0) ->
  line_available env k 18 ->
  0 <= j < 4 ->
  (forall i, 0 <= i < j -> line_available env k (22 + i)) ->
  ~ line_available env k (22 + j) ->
  let r := plat_drv_probe env k in
  fst r <> 0 /\
  gpio_owner (snd r) = gpio_owner k /\
  (forall m, 0 <= m < 5 -> m ∈ cdevs (snd r) /\ m ∈ devices (snd r)) /\
  trace (snd r) =
    trace k ++ stepper_frees j ++ [GpioFree 18; ClassDestroy; UnregisterChrdevRegion] /\
  gpio_class (snd r) = false /\ chrdev_region (snd r) = false /\
  (forall k0, fst (for_down free_body (j - 1) k0) = -1) /\
  (forall err k0,
     cleanup_cdev (-1) err k0 = (err, unregister_chrdev_region (class_destroy k0))).
Proof.
  intros Ha Hc Hcdev Hav18 Hj Hav Hno r.
  destruct (probe_stepper_failure env k j Ha Hc Hcdev Hav18 Hj Hav Hno)
    as (Herr & Hown & Hcd & Hdv & Hcl & Hrg & Htr).
  fold r in Herr, Hown, Hcd, Hdv, Hcl, Hrg, Htr.
  split; [exact Herr|]. split; [exact Hown|].
  split; [intros m Hm; split; [apply Hcd|apply Hdv]; left; exact Hm|].
  split; [exact Htr|]. split; [exact Hcl|]. split; [exact Hrg|].
  split.
  - intros k0. apply for_down_index. lia.
  - intros err k0. apply cleanup_cdev_none. lia.
Qed.

Lemma stepper_failure_keeps_endpoints_witness :
  let r := plat_drv_probe env_ok line24_busy in
  fst r <> 0 /\
  (forall m, 0 <= m < 5 -> m ∈ cdevs (snd r) /\ m ∈ devices (snd r)) /\
  trace (snd r) =
    [GpioFree 23; GpioFree 22; GpioFree 18; ClassDestroy; UnregisterChrdevRegion].
Proof.
  assert (Hav18 : line_available env_ok line24_busy 18) by (split; reflexivity).
  assert (Hav : forall i, 0 <= i < 2 -> line_available env_ok line24_busy (22 + i)).
  { intros i Hi. assert (Hc : i = 0 \/ i = 1) by lia.
    destruct Hc as [-> | ->]; split; reflexivity. }
  assert (Hno : ~ line_available env_ok line24_busy (22 + 2)).
  { intros [_ H]. vm_compute in H. discriminate. }
  destruct (stepper_failure_keeps_endpoints env_ok line24_busy 2
              eq_refl eq_refl (fun m _ => eq_refl) Hav18 ltac:(lia) Hav Hno)
    as (Herr & _ & Hnodes & Htr & _).
  split; [exact Herr|]. split; [exact Hnodes|exact Htr].
Defined.

(** ** The line parser *)

Lemma append_cons (c : ascii) (s t : string) :
  String c s +:+ t = String c (s +:+ t).
Proof. reflexivity. Qed.

Lemma match_literal_app (lit rest : string) :
  match_literal lit (lit +:+ rest) = Some rest.
Proof.
  induction lit as [|a lit IH]; simpl; [destruct rest; reflexivity|].
  rewrite Ascii.eqb_refl. exact IH.
Qed.

Lemma match_literal_some (lit line rest : string) :
  match_literal lit line = Some rest -> line = lit +:+ rest.
Proof.
  revert line. induction lit as [|a lit IH]; intros line H.
  - destruct line; simpl in H; injection H as <-; reflexivity.
  - destruct line as [|b line]; simpl in H; [discriminate|].
    destruct (Ascii.eqb_spec a b) as [->|]; [|discriminate].
    change (String b line = String b (lit +:+ rest)). f_equal. apply IH, H.
Qed.

Lemma skip_space_app (blanks r : string) :
  all_space blanks = true -> skip_space (blanks +:+ r) = skip_space r.
Proof.
  induction blanks as [|c blanks IH]; simpl; intros H; [reflexivity|].
  apply andb_prop in H as [Hc Hb]. rewrite Hc. apply IH, Hb.
Qed.

Lemma skip_space_split (s : string) :
  exists blanks, all_space blanks = true /\ s = blanks +:+ skip_space s /\
    match skip_space s with
    | EmptyString => True
    | String c _ => isspace c = false
    end.
Proof.
  induction s as [|c s (blanks & Hb & Hs & Hh)]; simpl.
  - exists EmptyString. auto.
  - destruct (isspace c) eqn:Ec.
    + exists (String c blanks). simpl. rewrite Ec, Hb.
      split; [reflexivity|]. split; [rewrite append_cons; f_equal; exact Hs|exact Hh].
    + exists EmptyString. simpl. auto.
Qed.

Lemma take_nonspace_split (w : nat) (s : string) :
  exists tail, s = take_nonspace w s +:+ tail /\
    no_space (take_nonspace w s) = true /\
    (String.length (take_nonspace w s) <= w)%nat /\
    (String.length (take_nonspace w s) = w \/ ends_token tail).
Proof.
  revert s. induction w as [|w IH]; intros s.
  - exists s. destruct s; simpl; auto.
  - destruct s as [|c s]; simpl.
    + exists EmptyString. simpl. repeat split; auto. lia.
    + destruct (isspace c) eqn:Ec.
      * exists (String c s). simpl. repeat split; auto. lia.
      * destruct (IH s) as (tail & Hs & Hn & Hl & He).
        exists tail. simpl. rewrite Ec, Hn.
        split; [rewrite append_cons; f_equal; exact Hs|]. split; [reflexivity|].
        split; [lia|]. destruct He as [He|He]; [left; lia|right; exact He].
Qed.

Lemma take_nonspace_exact (w : nat) (t tail : string) :
  no_space t = true -> (String.length t <= w)%nat ->
  (String.length t = w \/ ends_token tail) ->
  take_nonspace w (t +:+ tail) = t.
Proof.
  revert t. induction w as [|w IH]; intros t Hn Hl He.
  - destruct t; simpl in *; [|lia]. destruct tail; reflexivity.
  - destruct t as [|c t]; simpl in *.
    + destruct He as [He|He]; [lia|].
      destruct tail as [|d tail]; simpl in *; [reflexivity|]. rewrite He. reflexivity.
    + apply andb_prop in Hn as [Hc Hn]. apply negb_true_iff in Hc. rewrite Hc.
      f_equal. apply IH; [exact Hn|lia|]. destruct He as [He|He]; [left; lia|right; exact He].
Qed.

Lemma no_space_head (t tail : string) :
  no_space t = true -> t <> EmptyString ->
  exists c r, t +:+ tail = String c r /\ isspace c = false.
Proof.
  intros Hn Ht. destruct t as [|c t]; [contradiction|].
  simpl in Hn. apply andb_prop in Hn as [Hc _]. apply negb_true_iff in Hc.
  exists c, (t +:+ tail). auto.
Qed.

Lemma parse_some_of_shape (blanks token tail : string) :
  all_space blanks = true -> no_space token = true -> token <> EmptyString ->
  parseSunDirection ("SUN_DIR:" +:+ blanks +:+ token +:+ tail)
  = Some (take_nonspace 31 (token +:+ tail)).
Proof.
  intros Hb Hn Ht. unfold parseSunDirection.
  rewrite match_literal_app. unfold scan_s.
  rewrite skip_space_app by exact Hb.
  destruct (no_space_head token tail Hn Ht) as (c & r & -> & Hc).
  simpl skip_space. rewrite Hc. reflexivity.
Qed.

(** C7, as the code has it.  [parseSunDirection] yields a token exactly
    for the lines made of the prefix [SUN_DIR:], then any white space, then
    at least one character that is not white space; whatever follows the
    token is ignored.  The token is the run of non-white characters found
    there, cut after 31 characters, so it fits the 32-byte buffer with its
    terminator.  Every other line yields no command.  A line that is the
    prefix followed by 1 to 31 non-white characters yields those
    characters, and the prefix followed by forty x yields thirty-one x. *)
Theorem parse_accepts_prefixed_token (line : string) :
  match parseSunDirection line with
  | Some token =>
      (1 <= String.length token <= 31)%nat /\ no_space token = true /\
      (String.length token + 1 <= direction_size)%nat /\
      exists blanks tail,
        line = "SUN_DIR:" +:+ blanks +:+ token +:+ tail /\
        all_space blanks = true /\
        (String.length token = 31%nat \/ ends_token tail)
  | None =>
      forall blanks token tail,
        all_space blanks = true -> no_space token = true -> token <> EmptyString ->
        line <> "SUN_DIR:" +:+ blanks +:+ token +:+ tail
  end /\
  (forall token, no_space token = true -> (1 <= String.length token <= 31)%nat ->
     parseSunDirection ("SUN_DIR:" +:+ token) = Some token) /\
  parseSunDirection ("SUN_DIR:" +:+ forty_x) = Some thirty_one_x.
Proof.
  split; [|split; [|reflexivity]].
  - destruct (parseSunDirection line) as [token|] eqn:Hp.
    + unfold parseSunDirection in Hp.
      destruct (match_literal "SUN_DIR:" line) as [rest|] eqn:Hm; [|discriminate].
      apply match_literal_some in Hm. unfold scan_s in Hp.
      destruct (skip_space_split rest) as (blanks & Hb & Hrest & Hhead).
      destruct (skip_space rest) as [|c r] eqn:Hs; [discriminate|].
      assert (Htok : token = take_nonspace 31 (String c r)) by congruence.
      clear Hp. subst token.
      destruct (take_nonspace_split 31 (String c r)) as (tail & Ht & Hn & Hl & He).
      assert (Hpos : (1 <= String.length (take_nonspace 31 (String c r)))%nat).
      { simpl. rewrite Hhead. simpl. lia. }
      split; [lia|]. split; [exact Hn|]. split; [unfold direction_size; lia|].
      exists blanks, tail. split; [|split; assumption].
      rewrite Hm, Hrest at 1. rewrite Ht at 1. reflexivity.
    + intros blanks token tail Hb Hn Ht ->.
      rewrite (parse_some_of_shape blanks token tail Hb Hn Ht) in Hp. discriminate.
  - intros token Hn Hl.
    assert (Ht : token <> EmptyString) by (destruct token; simpl in Hl; [lia|discriminate]).
    pose proof (parse_some_of_shape EmptyString token EmptyString eq_refl Hn Ht) as H.
    rewrite (take_nonspace_exact 31 token EmptyString Hn) in H by (simpl; auto; lia).
    replace (token +:+ EmptyString) with token in H; [exact H|].
    clear. induction token as [|c t IH]; [reflexivity|].
    rewrite append_cons, <- IH. reflexivity.
Qed.

(** The examples of the specification: a newline ends the token, a line
    without the prefix gives no command. *)
Lemma parse_examples :
  parseSunDirection ("SUN_DIR:Op" +:+ nl) = Some "Op" /\
  parseSunDirection ("SUN_DIR:Ned" +:+ nl) = Some "Ned" /\
  parseSunDirection ("garbage" +:+ nl) = None /\
  parseSunDirection "SUN_DIR:" = None /\
  parseSunDirection " SUN_DIR:Op" = None.
Proof. repeat split. Qed.

(** C7 as stated fails on a line with a blank after the prefix: it is not
    of the claimed shape (what follows the prefix starts with white space),
    yet it is accepted and yields the word behind the blank. *)
Lemma parse_skips_blank_after_prefix :
  claimed_shape "SUN_DIR: Op" = false /\
  parseSunDirection "SUN_DIR: Op" = Some "Op".
Proof. repeat split. Qed.

Lemma parse_accepts_prefixed_token_witness :
  parseSunDirection "SUN_DIR:Op" = Some "Op".
Proof.
  destruct (parse_accepts_prefixed_token "SUN_DIR:Op") as (_ & Hplain & _).
  apply (Hplain "Op"); [reflexivity|simpl; lia].
Defined.

(** ** The controller *)

(** The words the controller acts on, and what it does for each. *)
Lemma dispatch_table :
  dispatch "Venstre" = Rotate 50 0 /\
  dispatch "Hojre" = Rotate 50 1 /\
  dispatch accented_Hojre = Rotate 50 1 /\
  dispatch "Op" = MoveServo 90 /\
  dispatch "Ned" = MoveServo 45.
Proof. repeat split. Qed.

Lemma dispatch_other (direction : string) :
  direction <> "Venstre" -> direction <> "Hojre" -> direction <> accented_Hojre ->
  direction <> "Op" -> direction <> "Ned" ->
  dispatch direction = NoMovement.
Proof.
  intros H1 H2 H3 H4 H5. unfold dispatch, streq.
  apply String.eqb_neq in H1, H2, H3, H4, H5.
  rewrite H1, H2, H3, H4, H5. reflexivity.
Qed.

(** [moveServo], the controller's own entry to the servo: the same
    outcome through the device file. *)
Lemma moveServo_spec (k : kstate) (a : Z) :
  0 ∈ devices k -> 0 ∈ cdevs k ->
  (0 <= a <= 180 ->
     fst (moveServo a k) = 0 /\ servo_angle (snd (moveServo a k)) = a) /\
  (a < 0 \/ 180 < a -> moveServo a k = (-1, k)).
Proof.
  intros Hd Hc. unfold moveServo. split.
  - intros Ha. destruct (Z.ltb_spec a 0); [lia|]. destruct (Z.gtb_spec a 180); [lia|].
    simpl orb. cbv iota. unfold open_wronly.
    change (dev_minor SERVO_DEV) with (Some 0). cbv iota.
    destruct (decide _) as [_|Hno]; [|exfalso; apply Hno; auto].
    destruct (kstrtoint_fmt_d a) as (Hp & Hs & Hl);
      [unfold INT_MIN, INT_MAX; lia|].
    unfold write_fd, snprintf. cbn [fst].
    rewrite (take_all (16 - 1) (fmt_d a)) by (simpl; lia). rewrite Hs.
    assert (Hlen : (String.length (fmt_d a) < 32)%nat) by lia.
    rewrite <- Hs in Hp.
    destruct (gpio_write_servo_ok k (fmt_d a) a Hlen Hp Ha) as (H1 & H2 & _).
    destruct (gpio_write 0 (fmt_d a) k) as [r k']. simpl in H1, H2. subst r.
    destruct (Z.ltb_spec (Z.of_nat (String.length (fmt_d a))) 0); [lia|].
    split; [reflexivity|exact H2].
  - intros Ha. destruct (Z.ltb_spec a 0); [reflexivity|].
    destruct (Z.gtb_spec a 180); [reflexivity|lia].
Qed.

Lemma three_lines_actions :
  fst (main_loop three_lines attached)
  = [Some (Rotate 50 0); Some (MoveServo 90); Some NoMovement].
Proof. vm_compute. reflexivity. Qed.

(** C5 at the word the firmware sends for the right-hand sensor.
    [getSunDirection] answers with the UTF-8 spelling (bytes C3 B8 for the
    accented letter) when the right sensor is brightest, the line the
    ESP32 then prints is parsed to that word, and the controller compares
    it with a literal whose accented letter is the four bytes C3 83 C2 B8:
    the word is classified as unknown and the stepper is not rotated.  Only
    the unaccented spelling and the four-byte spelling turn right. *)
Theorem accented_right_is_ignored :
  Esp32.getSunDirection 100 900 200 300 = Esp32.Hoejre /\
  parseSunDirection (Esp32.uart_line Esp32.Hoejre) = Some Esp32.Hoejre /\
  dispatch Esp32.Hoejre = NoMovement /\
  fst (handle_line (Esp32.uart_line Esp32.Hoejre) attached) = Some NoMovement /\
  trace (snd (handle_line (Esp32.uart_line Esp32.Hoejre) attached))
    = trace attached ++ [Usleep 100000] /\
  Esp32.Hoejre <> accented_Hojre /\
  dispatch accented_Hojre = Rotate 50 1 /\
  dispatch "Hojre" = Rotate 50 1.
Proof. vm_compute. repeat split. discriminate. Qed.
